(** * UNFLoader helper.cpp: termination, device errors, identifier codec,
      filename generator and progress bar

    A shallow embedding of [src/UNFLoader/helper.cpp].  Every C function of
    the file becomes a computation in a small monad over the process state:
    a computation either returns to its caller, ends the process ([exit]),
    or leaves the behaviour C defines (a fixed-size buffer overrun, a table
    read out of bounds, a float-to-int conversion out of range).

    Calls into the collaborators of the file (term, debug, device, libc) are
    recorded, in order, in a trace. *)

From Stdlib Require Import ZArith List String Ascii Bool Lia.
From Stdlib Require Import Floats.SpecFloat.
From Stdlib Require Import QArith Qround.
Import ListNotations.

Local Open Scope string_scope.
Local Open Scope Z_scope.

(** ** C characters and strings *)

(** The value of a [char] once promoted to [int].  The digit tests of the
    file only accept codes 48..55, where signed and unsigned [char] agree. *)
Definition char_code (c : ascii) : Z := Z.of_nat (nat_of_ascii c).

(** ['0'] *)
Definition chr_0 : Z := 48.

(** [s[i]]: the [i]-th byte of the C string, the terminating NUL at
    [i = strlen s].  The file reads [s[1]] only after [s[0]] passed a digit
    test, so it never reads past the terminator. *)
Definition char_at (s : string) (i : nat) : Z :=
  match String.get i s with
  | Some c => char_code c
  | None => 0
  end.

(** A Rocq string stands for a C string when it holds no NUL byte. *)
Fixpoint cstring (s : string) : bool :=
  match s with
  | EmptyString => true
  | String c s' => negb (char_code c =? 0) && cstring s'
  end.

(** libc [strcmp]: bytes are compared as [unsigned char] up to and including
    the first terminator. *)
Fixpoint strcmp (a b : string) : Z :=
  match a, b with
  | EmptyString, EmptyString => 0
  | EmptyString, String d _ => 0 - char_code d
  | String c _, EmptyString => char_code c
  | String c a', String d b' =>
      if char_code c =? char_code d
      then (if char_code c =? 0 then 0 else strcmp a' b')
      else char_code c - char_code d
  end.

(** What [%s] copies: the bytes before the first NUL. *)
Fixpoint c_str (s : string) : string :=
  match s with
  | EmptyString => EmptyString
  | String c s' => if char_code c =? 0 then EmptyString else String c (c_str s')
  end.

Definition strlen (s : string) : Z := Z.of_nat (String.length (c_str s)).

(** ** printf-style formatting *)

(** The variadic arguments the file passes to its format strings. *)
Inductive arg : Type :=
| arg_str (s : string)          (* const char*  for %s *)
| arg_int (n : Z)               (* int          for %d, %02d, %c *)
| arg_double (x : spec_float).  (* float promoted to double, for %.02f *)

Definition digit_char (d : Z) : ascii := ascii_of_nat (Z.to_nat (chr_0 + d)).

(** Decimal digits of a non-negative number, most significant first. *)
Fixpoint dec_digits (fuel : nat) (n : Z) (acc : string) : string :=
  match fuel with
  | O => acc
  | S fuel' =>
      let acc' := String (digit_char (n mod 10)) acc in
      if n <? 10 then acc' else dec_digits fuel' (n / 10) acc'
  end.

Definition dec_nonneg (n : Z) : string :=
  dec_digits (S (Z.to_nat (Z.log2 n))) n EmptyString.

Fixpoint zeros (k : nat) : string :=
  match k with
  | O => EmptyString
  | S k' => String "0"%char (zeros k')
  end.

(** [%0Wd]: sign first, then zeros up to the field width, then the digits.
    [%d] is width 0. *)
Definition fmt_d (width : nat) (n : Z) : string :=
  let sign := if n <? 0 then "-" else "" in
  let ds := dec_nonneg (Z.abs n) in
  sign ++ zeros (width - String.length sign - String.length ds) ++ ds.

(** [%.02f]: the exact binary value rounded to hundredths, ties to even, as
    the C library prints a double.  A binary32 value promoted to double
    keeps its value, so the argument is carried as the float it is. *)
Definition round_half_even (num den : Z) : Z :=
  let q := num / den in
  let r := num mod den in
  match (2 * r) ?= den with
  | Lt => q
  | Gt => q + 1
  | Eq => if Z.even q then q else q + 1
  end.

Definition hundredths (m : positive) (e : Z) : Z :=
  if e <? 0 then round_half_even (Zpos m * 100) (2 ^ (- e))
  else Zpos m * 2 ^ e * 100.

Definition fmt_f2 (x : spec_float) : string :=
  match x with
  | S754_zero s => (if s then "-" else "") ++ "0.00"
  | S754_infinity s => (if s then "-" else "") ++ "inf"
  | S754_nan => "nan"
  | S754_finite s m e =>
      let h := hundredths m e in
      (if s then "-" else "") ++ dec_nonneg (h / 100) ++ "." ++ fmt_d 2 (h mod 100)
  end.

Definition is_char (c : ascii) (d : string) : bool :=
  match d with
  | String d0 EmptyString => Ascii.eqb c d0
  | _ => false
  end.

(** [vsprintf], for the conversions the file uses: [%s %d %c %02d %.02f %%].
    [None] stands for a call C leaves undefined (a conversion without a
    matching argument) and for every format outside these conversions,
    which libc defines and this model does not cover; what is stated of a
    formatted text is stated where the result is [Some]. *)
Fixpoint vsprintf (fmt : string) (args : list arg) {struct fmt} : option string :=
  match fmt with
  | EmptyString => Some EmptyString
  | String c rest =>
      if is_char c "%" then
        match rest with
        | EmptyString => None
        | String d r1 =>
            if is_char d "%" then option_map (String d) (vsprintf r1 args)
            else if is_char d "s" then
              match args with
              | arg_str s :: args' => option_map (append (c_str s)) (vsprintf r1 args')
              | _ => None
              end
            else if is_char d "d" then
              match args with
              | arg_int n :: args' => option_map (append (fmt_d 0 n)) (vsprintf r1 args')
              | _ => None
              end
            else if is_char d "c" then
              match args with
              | arg_int n :: args' =>
                  option_map (String (ascii_of_nat (Z.to_nat (n mod 256)))) (vsprintf r1 args')
              | _ => None
              end
            else
              match r1 with
              | String d2 (String d3 r3) =>
                  if is_char d "0" && is_char d2 "2" && is_char d3 "d" then
                    match args with
                    | arg_int n :: args' => option_map (append (fmt_d 2 n)) (vsprintf r3 args')
                    | _ => None
                    end
                  else
                    match r3 with
                    | String d4 r4 =>
                        if is_char d "." && is_char d2 "0" && is_char d3 "2" && is_char d4 "f" then
                          match args with
                          | arg_double x :: args' => option_map (append (fmt_f2 x)) (vsprintf r4 args')
                          | _ => None
                          end
                        else None
                    | EmptyString => None
                    end
              | _ => None
              end
        end
      else option_map (String c) (vsprintf rest args)
  end.

(** ** Process state *)

(** Calls that leave this file, as the trace records them. *)
Inductive event : Type :=
| ev_log_colored (text : string) (color : Z)   (* term: append text *)
| ev_log_replace (text : string) (color : Z)   (* term: rewrite the current line *)
| ev_debug_closedebugout
| ev_device_close
| ev_system (command : string)
| ev_tcgetattr
| ev_tcsetattr (raw : bool)    (* true: ICANON and ECHO cleared, VMIN 1, VTIME 0; false: the saved attributes *)
| ev_getchar
| ev_getch
| ev_set_terminating           (* global_terminating = true *)
| ev_term_end.

Record world : Type := mkWorld {
  trace : list event;               (* oldest first *)
  global_terminating : bool;        (* main.h *)
  increment : Z;                    (* static int of gen_filename *)
  lasttime : Z;                     (* static int of gen_filename *)
  debugout_open : bool;             (* debug_getdebugout() != NULL *)
  device_open : bool;               (* device_isopen() *)
  using_curses : bool;              (* term_isusingcurses() *)
  device_cart : Z;                  (* device_getcart() *)
  binaryout : option string         (* debug_getbinaryout(), None for NULL *)
}.

(** The state of a freshly started process: nothing opened, statics zeroed. *)
Definition process_start : world :=
  mkWorld [] false 0 0 false false false 0 None.

Inductive result (A : Type) : Type :=
| Returned (a : A) (w : world)     (* control comes back to the caller *)
| Exited (status : Z) (w : world)  (* exit(status) was called *)
| Undefined.                       (* C gives the execution no meaning *)

Arguments Returned {A} a w.
Arguments Exited {A} status w.
Arguments Undefined {A}.

Definition M (A : Type) : Type := world -> result A.

Definition ret {A} (a : A) : M A := fun w => Returned a w.

Definition bind {A B} (c : M A) (k : A -> M B) : M B :=
  fun w =>
    match c w with
    | Returned a w' => k a w'
    | Exited status w' => Exited status w'
    | Undefined => Undefined
    end.

Declare Scope helper_scope.
Delimit Scope helper_scope with helper.
Notation "x <- c ;; k" := (bind c (fun x => k))
  (at level 61, c at next level, right associativity) : helper_scope.
Notation "c ;; k" := (bind c (fun _ => k))
  (at level 61, right associativity) : helper_scope.
Local Open Scope helper_scope.

Definition emit (e : event) : M unit :=
  fun w => Returned tt
    (mkWorld (trace w ++ [e])%list (global_terminating w) (increment w) (lasttime w)
             (debugout_open w) (device_open w) (using_curses w) (device_cart w)
             (binaryout w)).

Definition undefined {A} : M A := fun _ => Undefined.

(** [exit(status)] *)
Definition exit {A} (status : Z) : M A := fun w => Exited status w.

Definition when (b : bool) (c : M unit) : M unit := if b then c else ret tt.

(** Reads of the collaborators' state. *)
Definition debug_getdebugout_notnull : M bool := fun w => Returned (debugout_open w) w.
Definition device_isopen : M bool := fun w => Returned (device_open w) w.
Definition term_isusingcurses : M bool := fun w => Returned (using_curses w) w.
Definition device_getcart : M Z := fun w => Returned (device_cart w) w.
Definition debug_getbinaryout : M (option string) := fun w => Returned (binaryout w) w.

(** term.h [log_colored] and [log_replace]: printf-style, with a colour. *)
Definition log_colored (fmt : string) (color : Z) (args : list arg) : M unit :=
  match vsprintf fmt args with
  | Some text => emit (ev_log_colored text color)
  | None => undefined
  end.

Definition log_replace (fmt : string) (color : Z) (args : list arg) : M unit :=
  match vsprintf fmt args with
  | Some text => emit (ev_log_replace text color)
  | None => undefined
  end.

Definition set_global_terminating : M unit :=
  fun w => Returned tt
    (mkWorld (trace w ++ [ev_set_terminating])%list true (increment w) (lasttime w)
             (debugout_open w) (device_open w) (using_curses w) (device_cart w)
             (binaryout w)).

(** The build target: [LINUX] defined or not. *)
Inductive platform : Type := WINDOWS | LINUX.

(** ** Declarations of other headers *)

(** Modelled from the spec: the enum declarations of device.h are not part of
    the source at hand.  CartType and SaveType are one-based behind a NONE
    sentinel at 0, CICType is zero-based; each table below lists the names
    in the order of the enumerators. *)
Definition CART_NONE : Z := 0.
Definition CART_64DRIVE1 : Z := 1.
Definition CART_64DRIVE2 : Z := 2.
Definition CART_EVERDRIVE : Z := 3.
Definition CART_SC64 : Z := 4.

Definition CIC_6101 : Z := 0.
Definition CIC_6102 : Z := 1.
Definition CIC_7101 : Z := 2.
Definition CIC_7102 : Z := 3.
Definition CIC_X103 : Z := 4.
Definition CIC_X105 : Z := 5.
Definition CIC_X106 : Z := 6.
Definition CIC_5101 : Z := 7.

Definition SAVE_NONE : Z := 0.
Definition SAVE_EEPROM4K : Z := 1.
Definition SAVE_EEPROM16K : Z := 2.
Definition SAVE_SRAM256 : Z := 3.
Definition SAVE_FLASHRAM : Z := 4.
Definition SAVE_SRAM768 : Z := 5.
Definition SAVE_FLASHRAMPKMN : Z := 6.

(** The enumerators of DeviceError that helper.cpp names, in the order it
    names them.  Their numeric values are declared in device.h. *)
Inductive DeviceError : Type :=
| DEVICEERR_USBBUSY
| DEVICEERR_NODEVICES
| DEVICEERR_CARTFINDFAIL
| DEVICEERR_CANTOPEN
| DEVICEERR_RESETFAIL
| DEVICEERR_RESETPORTFAIL
| DEVICEERR_TIMEOUTSETFAIL
| DEVICEERR_PURGEFAIL
| DEVICEERR_READFAIL
| DEVICEERR_WRITEFAIL
| DEVICEERR_WRITEZERO
| DEVICEERR_CLOSEFAIL
| DEVICEERR_BITMODEFAIL_RESET
| DEVICEERR_BITMODEFAIL_SYNCFIFO
| DEVICEERR_SETDTRFAIL
| DEVICEERR_CLEARDTRFAIL
| DEVICEERR_TXREPLYMISMATCH
| DEVICEERR_READCOMPSIGFAIL
| DEVICEERR_NOCOMPSIG
| DEVICEERR_READPACKSIZEFAIL
| DEVICEERR_BADPACKSIZE
| DEVICEERR_MALLOCFAIL
| DEVICEERR_UPLOADCANCELLED
| DEVICEERR_TIMEOUT
| DEVICEERR_64D_8303USB
| DEVICEERR_64D_BADCMP
| DEVICEERR_64D_CANTDEBUG
| DEVICEERR_64D_BADDMA
| DEVICEERR_SC64_CTRLRESETFAIL
| DEVICEERR_SC64_CTRLRELEASEFAIL
| DEVICEERR_SC64_FIRMWARECHECKFAIL
| DEVICEERR_SC64_FIRMWAREUNKNOWN
| DEVICEERR_OK
| DEVICEERR_NOTCART.

Definition all_deviceerrors : list DeviceError :=
  [ DEVICEERR_USBBUSY; DEVICEERR_NODEVICES; DEVICEERR_CARTFINDFAIL;
    DEVICEERR_CANTOPEN; DEVICEERR_RESETFAIL; DEVICEERR_RESETPORTFAIL;
    DEVICEERR_TIMEOUTSETFAIL; DEVICEERR_PURGEFAIL; DEVICEERR_READFAIL;
    DEVICEERR_WRITEFAIL; DEVICEERR_WRITEZERO; DEVICEERR_CLOSEFAIL;
    DEVICEERR_BITMODEFAIL_RESET; DEVICEERR_BITMODEFAIL_SYNCFIFO;
    DEVICEERR_SETDTRFAIL; DEVICEERR_CLEARDTRFAIL; DEVICEERR_TXREPLYMISMATCH;
    DEVICEERR_READCOMPSIGFAIL; DEVICEERR_NOCOMPSIG;
    DEVICEERR_READPACKSIZEFAIL; DEVICEERR_BADPACKSIZE; DEVICEERR_MALLOCFAIL;
    DEVICEERR_UPLOADCANCELLED; DEVICEERR_TIMEOUT; DEVICEERR_64D_8303USB;
    DEVICEERR_64D_BADCMP; DEVICEERR_64D_CANTDEBUG; DEVICEERR_64D_BADDMA;
    DEVICEERR_SC64_CTRLRESETFAIL; DEVICEERR_SC64_CTRLRELEASEFAIL;
    DEVICEERR_SC64_FIRMWARECHECKFAIL; DEVICEERR_SC64_FIRMWAREUNKNOWN;
    DEVICEERR_OK; DEVICEERR_NOTCART ].

(** Pairwise distinct numbers, as a check that runs. *)
Fixpoint distinct (l : list Z) : bool :=
  match l with
  | [] => true
  | x :: l' => negb (existsb (Z.eqb x) l') && distinct l'
  end.

(** The bit modes of the FTDI D2XX header (ftd2xx.h). *)
Definition FT_BITMODE_RESET : Z := 0.
Definition FT_BITMODE_SYNC_FIFO : Z := 64.

Definition nl : string := String (ascii_of_nat 10) EmptyString.

(** ** Globals *)

Definition cart_strings : list string :=
  ["64Drive HW1"; "64Drive HW2"; "EverDrive"; "SC64"].
Definition cart_strcount : Z := Z.of_nat (List.length cart_strings).
Definition cic_strings : list string :=
  ["6101"; "6102"; "7101"; "7102"; "X103"; "X105"; "X106"; "5101"].
Definition cic_strcount : Z := Z.of_nat (List.length cic_strings).
Definition save_strings : list string :=
  ["EEPROM 4Kbit"; "EEPROM 16Kbit"; "SRAM 256Kbit"; "FlashRAM 1Mbit";
   "SRAM 768Kbit"; "FlashRAM 1Mbit (PokeStdm2)"].
Definition save_strcount : Z := Z.of_nat (List.length save_strings).

(** [table[i]]; [None] when the read falls outside the array. *)
Definition index {A} (table : list A) (i : Z) : option A :=
  if i <? 0 then None else nth_error table (Z.to_nat i).

(** [for (int i = from; i < count; i++) if (!strcmp(table[i], s)) return i;]
    over the remaining rows of the table, [None] when the loop runs out. *)
Fixpoint first_match (table : list string) (i : Z) (s : string) : option Z :=
  match table with
  | [] => None
  | row :: rows => if strcmp row s =? 0 then Some i else first_match rows (i + 1) s
  end.

(** [for (; i < bound; i++) body], giving the final [i].  The fuel a caller
    passes is the distance to the bound. *)
Fixpoint for_lt (fuel : nat) (i bound : Z) (body : M unit) : M Z :=
  match fuel with
  | O => ret i
  | S fuel' =>
      if i <? bound then body ;; for_lt fuel' (i + 1) bound body else ret i
  end.

(** [switch] over distinct case labels, every case ending in break or
    return. *)
Fixpoint switch (v : Z) (cases : list (Z * M unit)) (default : M unit) : M unit :=
  match cases with
  | [] => default
  | (label, body) :: cases' => if v =? label then body else switch v cases' default
  end.

(** ** binary32 *)

Definition float_mul : spec_float -> spec_float -> spec_float := SFmul 24 128.

(** int to float, and the literal [100.0f]. *)
Definition float_of_int (n : Z) : spec_float := binary_normalize 24 128 n 0 false.

(** [m * 2^23], the product of a mantissa with the mantissa of 16.0f. *)
Definition shl23 (m : positive) : positive :=
  (m~0~0~0~0~0~0~0~0~0~0~0~0~0~0~0~0~0~0~0~0~0~0~0)%positive.

Definition INT_MIN : Z := - 2 ^ 31.
Definition INT_MAX : Z := 2 ^ 31 - 1.

(** [(int)x]: the fraction is discarded; [None] where the value has no
    [int]. *)
Definition float_to_int (x : spec_float) : option Z :=
  match x with
  | S754_zero _ => Some 0
  | S754_finite s m e =>
      let t := if e <? 0 then Zpos m / 2 ^ (- e) else Zpos m * 2 ^ e in
      let v := if s then - t else t in
      if (INT_MIN <=? v) && (v <=? INT_MAX) then Some v else None
  | _ => None
  end.

(** [struct tm], the fields the file reads.  They come from [localtime], so
    the [int] arithmetic on them is exact. *)
Record tm : Type := mkTm {
  tm_sec : Z; tm_min : Z; tm_hour : Z; tm_mday : Z; tm_mon : Z; tm_year : Z
}.

Definition set_increment (n : Z) : M unit :=
  fun w => Returned tt
    (mkWorld (trace w) (global_terminating w) n (lasttime w)
             (debugout_open w) (device_open w) (using_curses w) (device_cart w)
             (binaryout w)).

Definition set_lasttime (n : Z) : M unit :=
  fun w => Returned tt
    (mkWorld (trace w) (global_terminating w) (increment w) n
             (debugout_open w) (device_open w) (using_curses w) (device_cart w)
             (binaryout w)).

Definition get_increment : M Z := fun w => Returned (increment w) w.
Definition get_lasttime : M Z := fun w => Returned (lasttime w) w.

(** ** Sample values

    A numbering of the enumerators to run the classifier on (OK is 0,
    NOTCART 1, the others follow in the order of the switch), colour pairs,
    and two clock readings one day apart. *)
Definition sample_code (v : DeviceError) : Z :=
  match v with
  | DEVICEERR_OK => 0
  | DEVICEERR_NOTCART => 1
  | DEVICEERR_USBBUSY => 2
  | DEVICEERR_NODEVICES => 3
  | DEVICEERR_CARTFINDFAIL => 4
  | DEVICEERR_CANTOPEN => 5
  | DEVICEERR_RESETFAIL => 6
  | DEVICEERR_RESETPORTFAIL => 7
  | DEVICEERR_TIMEOUTSETFAIL => 8
  | DEVICEERR_PURGEFAIL => 9
  | DEVICEERR_READFAIL => 10
  | DEVICEERR_WRITEFAIL => 11
  | DEVICEERR_WRITEZERO => 12
  | DEVICEERR_CLOSEFAIL => 13
  | DEVICEERR_BITMODEFAIL_RESET => 14
  | DEVICEERR_BITMODEFAIL_SYNCFIFO => 15
  | DEVICEERR_SETDTRFAIL => 16
  | DEVICEERR_CLEARDTRFAIL => 17
  | DEVICEERR_TXREPLYMISMATCH => 18
  | DEVICEERR_READCOMPSIGFAIL => 19
  | DEVICEERR_NOCOMPSIG => 20
  | DEVICEERR_READPACKSIZEFAIL => 21
  | DEVICEERR_BADPACKSIZE => 22
  | DEVICEERR_MALLOCFAIL => 23
  | DEVICEERR_UPLOADCANCELLED => 24
  | DEVICEERR_TIMEOUT => 25
  | DEVICEERR_64D_8303USB => 26
  | DEVICEERR_64D_BADCMP => 27
  | DEVICEERR_64D_CANTDEBUG => 28
  | DEVICEERR_64D_BADDMA => 29
  | DEVICEERR_SC64_CTRLRESETFAIL => 30
  | DEVICEERR_SC64_CTRLRELEASEFAIL => 31
  | DEVICEERR_SC64_FIRMWARECHECKFAIL => 32
  | DEVICEERR_SC64_FIRMWAREUNKNOWN => 33
  end.

Definition sample_error_color : Z := 1.
Definition sample_input_color : Z := 2.
Definition sample_program_color : Z := 3.

(** A text of [n] bytes that no parser recognises. *)
Fixpoint filler (n : nat) : string :=
  match n with
  | O => EmptyString
  | S n' => String "a"%char (filler n')
  end.

(** 1 January 2025, 10:00:00 and 2 January 2025, 10:00:00. *)
Definition new_year_morning : tm := mkTm 0 0 10 1 0 125.
Definition next_morning : tm := mkTm 0 0 10 2 0 125.

Section Helper.

(** The build target, the colour pairs of term.h and the numbering of the
    DeviceError enumerators in device.h. *)
Variable target : platform.
Variables CRDEF_ERROR CRDEF_INPUT CRDEF_PROGRAM : Z.
Variable code : DeviceError -> Z.

(** ** terminate *)

(** [char temp[255]] receives the formatted reason; a longer text overruns
    it. *)
Definition terminate (reason : option string) (args : list arg) : M unit :=
  (* Print why we're ending *)
  match reason with
  | Some fmt =>
      if negb (strcmp fmt "" =? 0) then
        match vsprintf fmt args with
        | Some temp =>
            if Z.of_nat (String.length temp) <? 255
            then log_colored "Error: %s" CRDEF_ERROR [arg_str temp]
            else undefined
        | None => undefined
        end
      else ret tt
  | None => ret tt
  end ;;
  log_colored nl CRDEF_ERROR [] ;;
  (* Close output debug file if it exists *)
  dbg <- debug_getdebugout_notnull ;;
  when dbg (emit ev_debug_closedebugout) ;;
  (* Close the flashcart if it's open *)
  dev <- device_isopen ;;
  when dev (emit ev_device_close) ;;
  (* Pause the program *)
  log_colored ("Press any key to continue..." ++ nl) CRDEF_INPUT [] ;;
  curses <- term_isusingcurses ;;
  (if negb curses then
     match target with
     | WINDOWS => emit (ev_system "pause > nul")
     | LINUX =>
         emit ev_tcgetattr ;;
         emit ev_tcgetattr ;;
         emit (ev_tcsetattr true) ;;
         emit ev_getchar ;;
         emit (ev_tcsetattr false)
     end
   else emit ev_getch) ;;
  (* End *)
  set_global_terminating ;;
  emit ev_term_end ;;
  exit (-1).

(** ** progressbar_draw *)

(** The two cells: a byte of code page 437 on Windows, the UTF-8 bytes of
    U+2588 and U+2591 on Linux. *)
Definition full_block : string :=
  String (ascii_of_nat 226) (String (ascii_of_nat 150) (String (ascii_of_nat 136) EmptyString)).
Definition light_shade : string :=
  String (ascii_of_nat 226) (String (ascii_of_nat 150) (String (ascii_of_nat 145) EmptyString)).

Definition draw_done (color : Z) : M unit :=
  match target with
  | WINDOWS => log_colored "%c" color [arg_int 219]
  | LINUX => log_colored full_block color []
  end.

Definition draw_todo (color : Z) : M unit :=
  match target with
  | WINDOWS => log_colored "%c" color [arg_int 176]
  | LINUX => log_colored light_shade color []
  end.

Definition progressbar_draw (text : string) (color : Z) (percent : spec_float) : M unit :=
  let prog_size := 16 in
  match float_to_int (float_mul percent (float_of_int prog_size)) with
  | None => undefined
  | Some blocks_done =>
      (* Print the head of the progress bar *)
      log_replace "%s [" color [arg_str text] ;;
      (* Draw the progress bar itself *)
      i <- for_lt (Z.to_nat (blocks_done - 0)) 0 blocks_done (draw_done color) ;;
      _ <- for_lt (Z.to_nat (prog_size - i)) i prog_size (draw_todo color) ;;
      (* Print the butt of the progress bar *)
      log_colored ("] %.02f%%" ++ nl) color [arg_double (float_mul percent (float_of_int 100))]
  end.

(** ** The identifier codec *)

Definition cart_strtotype (cartstring : string) : M Z :=
  if (char_at cartstring 0 >=? chr_0 + CART_64DRIVE1)
     && (char_at cartstring 0 <=? chr_0 + CART_SC64)
     && (char_at cartstring 1 =? 0)
  then ret (char_at cartstring 0 - chr_0)
  else
    match first_match cart_strings 0 cartstring with
    | Some i => ret (i + 1)
    | None =>
        terminate (Some "Unknown flashcart type '%s'") [arg_str cartstring] ;;
        ret CART_NONE
    end.

Definition cart_typetostr (cartenum : Z) : M string :=
  match index cart_strings (cartenum - 1) with
  | Some s => ret s
  | None => undefined
  end.

(** The fallback return names CIC_NONE, whose value device.h decides; it
    follows [terminate] and is carried as a parameter here. *)
Variable CIC_NONE : Z.

Definition cic_strtotype (cicstring : string) : M Z :=
  if (char_at cicstring 0 >=? chr_0 + CIC_6101)
     && (char_at cicstring 0 <=? chr_0 + CIC_5101)
     && (char_at cicstring 1 =? 0)
  then ret (char_at cicstring 0 - chr_0)
  else
    match first_match cic_strings 0 cicstring with
    | Some i => ret i
    | None =>
        terminate (Some "Unknown CIC '%s'") [arg_str cicstring] ;;
        ret CIC_NONE
    end.

Definition cic_typetostr (cicenum : Z) : M string :=
  match index cic_strings cicenum with
  | Some s => ret s
  | None => undefined
  end.

Definition save_strtotype (savestring : string) : M Z :=
  if (char_at savestring 0 >=? chr_0 + SAVE_EEPROM4K)
     && (char_at savestring 0 <=? chr_0 + SAVE_FLASHRAMPKMN)
     && (char_at savestring 1 =? 0)
  then ret (char_at savestring 0 - chr_0)
  else
    match first_match save_strings 0 savestring with
    | Some i => ret (i + 1)
    | None =>
        terminate (Some "Unknown save type '%s'") [arg_str savestring] ;;
        ret SAVE_NONE
    end.

Definition save_typetostr (saveenum : Z) : M string :=
  match index save_strings (saveenum - 1) with
  | Some s => ret s
  | None => undefined
  end.

(** ** gen_filename *)

(** [now] is what [localtime(time(NULL))] gives at the call; [malloc_ok] and
    [calloc_ok] say whether the two allocations succeed.  [increment] counts
    the calls of one second and stays far below [INT_MAX]. *)
Definition gen_filename (now : tm) (malloc_ok calloc_ok : bool)
    (filename fileext : string) : M (option string) :=
  (* Get the time *)
  let curtime := tm_hour now * 60 * 60 + tm_min now * 60 + tm_sec now in
  (* Increment the last value if two files were created at the same second *)
  last <- get_lasttime ;;
  (if negb (last =? curtime) then
     set_increment 0 ;;
     set_lasttime curtime
   else
     inc <- get_increment ;;
     set_increment (inc + 1)) ;;
  (* Generate the unique string *)
  if negb malloc_ok then ret None
  else
    inc <- get_increment ;;
    match vsprintf "%02d%02d%02d%02d%02d%02d%02d"
            [arg_int (Z.rem (tm_year now + 1900) 100); arg_int (tm_mon now + 1);
             arg_int (tm_mday now); arg_int (tm_hour now); arg_int (tm_min now);
             arg_int (tm_sec now); arg_int (Z.rem inc 100)] with
    | None => undefined
    | Some extraname =>
        (* Generate the final name *)
        out <- debug_getbinaryout ;;
        match out with
        | Some dir =>
            if negb calloc_ok then ret None
            else
              match vsprintf "%s%s-%s.%s"
                      [arg_str dir; arg_str filename; arg_str extraname; arg_str fileext] with
              | Some finalname => ret (Some finalname)
              | None => undefined
              end
        | None =>
            if negb calloc_ok then ret None
            else
              match vsprintf "%s-%s.%s"
                      [arg_str filename; arg_str extraname; arg_str fileext] with
              | Some finalname => ret (Some finalname)
              | None => undefined
              end
        end
    end.

(** ** handle_deviceerror *)

(** The case labels of the switch, each with its statements. *)
Definition deviceerror_cases : list (Z * M unit) :=
    [ (code DEVICEERR_USBBUSY, terminate (Some "USB Device not ready.") []);
      (code DEVICEERR_NODEVICES, terminate (Some "No FTDI USB devices found.") []);
      (code DEVICEERR_CARTFINDFAIL,
         cart <- device_getcart ;;
         if cart =? CART_NONE then
           match target with
           | WINDOWS => terminate (Some "No flashcart detected") []
           | LINUX => terminate (Some "No flashcart detected. Are you running sudo?") []
           end
         else terminate (Some "Requested flashcart not detected.") []);
      (code DEVICEERR_CANTOPEN, terminate (Some "Could not open USB device.") []);
      (code DEVICEERR_RESETFAIL, terminate (Some "Unable to reset USB device.") []);
      (code DEVICEERR_RESETPORTFAIL, terminate (Some "Unable to reset USB port.") []);
      (code DEVICEERR_TIMEOUTSETFAIL, terminate (Some "Unable to set flashcart timeouts.") []);
      (code DEVICEERR_PURGEFAIL, terminate (Some "Unable to purge USB contents.") []);
      (code DEVICEERR_READFAIL, terminate (Some "Unable to read from flashcart.") []);
      (code DEVICEERR_WRITEFAIL, terminate (Some "Unable to write to flashcart.") []);
      (code DEVICEERR_WRITEZERO, terminate (Some "Zero bytes were written to flashcart.") []);
      (code DEVICEERR_CLOSEFAIL, terminate (Some "Unable to close flashcart.") []);
      (code DEVICEERR_BITMODEFAIL_RESET,
         terminate (Some "Unable to set bitmode %d.") [arg_int FT_BITMODE_RESET]);
      (code DEVICEERR_BITMODEFAIL_SYNCFIFO,
         terminate (Some "Unable to set bitmode %d.") [arg_int FT_BITMODE_SYNC_FIFO]);
      (code DEVICEERR_SETDTRFAIL, terminate (Some "Unable to set DTR line.") []);
      (code DEVICEERR_CLEARDTRFAIL, terminate (Some "Unable to clear DTR line.") []);
      (code DEVICEERR_TXREPLYMISMATCH,
         terminate (Some "Actual bytes written amount is different than desired.") []);
      (code DEVICEERR_READCOMPSIGFAIL, terminate (Some "Unable to read completion signal.") []);
      (code DEVICEERR_NOCOMPSIG, terminate (Some "Did not receive completion signal.") []);
      (code DEVICEERR_READPACKSIZEFAIL, terminate (Some "Unable to read packet size.") []);
      (code DEVICEERR_BADPACKSIZE, terminate (Some "Wrong read packet size.") []);
      (code DEVICEERR_MALLOCFAIL, terminate (Some "Malloc failure.") []);
      (code DEVICEERR_UPLOADCANCELLED,
         log_replace ("Upload cancelled by the user." ++ nl) CRDEF_PROGRAM []);
      (code DEVICEERR_TIMEOUT, terminate (Some "Flashcart timed out.") []);
      (code DEVICEERR_64D_8303USB, terminate (Some "The 8303 CIC is not supported through USB.") []);
      (code DEVICEERR_64D_BADCMP, terminate (Some "Received bad CMP signal.") []);
      (code DEVICEERR_64D_CANTDEBUG,
         terminate (Some "Please upgrade to firmware 2.05 or higher to access USB debugging.") []);
      (code DEVICEERR_64D_BADDMA, terminate (Some "Unexpected DMA header.") []);
      (code DEVICEERR_SC64_CTRLRESETFAIL, terminate (Some "Couldn't perform SC64 controller reset.") []);
      (code DEVICEERR_SC64_CTRLRELEASEFAIL, terminate (Some "Couldn't release SC64 controller reset.") []);
      (code DEVICEERR_SC64_FIRMWARECHECKFAIL, terminate (Some "Couldn't get SC64 firmware version.") []);
      (code DEVICEERR_SC64_FIRMWAREUNKNOWN, terminate (Some "Unknown SC64 firmware version.") []) ].

Definition handle_deviceerror (err : Z) : M unit :=
  switch err deviceerror_cases
    (* default: *)
    (when (negb (err =? code DEVICEERR_OK) && negb (err =? code DEVICEERR_NOTCART))
       (log_colored ("Unhandled device error '%d'." ++ nl) CRDEF_ERROR [arg_int err])).

(** ** Vocabulary of the statements *)

(** The three identifier kinds and their converters. *)
Inductive kind : Type := Cart | CIC | Save.

Definition parse (k : kind) : string -> M Z :=
  match k with
  | Cart => cart_strtotype
  | CIC => cic_strtotype
  | Save => save_strtotype
  end.

Definition format (k : kind) : Z -> M string :=
  match k with
  | Cart => cart_typetostr
  | CIC => cic_typetostr
  | Save => save_typetostr
  end.

Definition strings (k : kind) : list string :=
  match k with
  | Cart => cart_strings
  | CIC => cic_strings
  | Save => save_strings
  end.

(** The valid, non-NONE range of each enum. *)
Definition first_value (k : kind) : Z :=
  match k with
  | Cart => CART_64DRIVE1
  | CIC => CIC_6101
  | Save => SAVE_EEPROM4K
  end.

Definition last_value (k : kind) : Z :=
  match k with
  | Cart => CART_SC64
  | CIC => CIC_5101
  | Save => SAVE_FLASHRAMPKMN
  end.

(** The row a value names: value minus one behind a NONE sentinel, the
    value itself for CIC. *)
Definition row_of (k : kind) (v : Z) : Z :=
  match k with
  | Cart => v - 1
  | CIC => v
  | Save => v - 1
  end.

Definition unknown_text (k : kind) (s : string) : string :=
  match k with
  | Cart => "Unknown flashcart type '" ++ s ++ "'"
  | CIC => "Unknown CIC '" ++ s ++ "'"
  | Save => "Unknown save type '" ++ s ++ "'"
  end.

(** The format each parser hands to [terminate], and the value its last
    line would return. *)
Definition unknown_format (k : kind) : string :=
  match k with
  | Cart => "Unknown flashcart type '%s'"
  | CIC => "Unknown CIC '%s'"
  | Save => "Unknown save type '%s'"
  end.

Definition fallback (k : kind) : Z :=
  match k with
  | Cart => CART_NONE
  | CIC => CIC_NONE
  | Save => SAVE_NONE
  end.

(** The numeric shorthand: one character, a digit of the valid range. *)
Definition shorthand (k : kind) (s : string) : bool :=
  match s with
  | String c EmptyString =>
      (chr_0 + first_value k <=? char_code c) && (char_code c <=? chr_0 + last_value k)
  | _ => false
  end.

(** [s] occurs in [t]. *)
Definition contains (t s : string) : Prop :=
  exists before after, t = before ++ s ++ after.

Definition returns {A} (r : result A) : Prop :=
  match r with
  | Returned _ _ => True
  | _ => False
  end.

(** The world with more events on its trace. *)
Definition emits (w : world) (evs : list event) : world :=
  mkWorld (trace w ++ evs)%list (global_terminating w) (increment w) (lasttime w)
          (debugout_open w) (device_open w) (using_curses w) (device_cart w)
          (binaryout w).

(** The wait for one key. *)
Definition keypress (w : world) : list event :=
  if using_curses w then [ev_getch]
  else
    match target with
    | WINDOWS => [ev_system "pause > nul"]
    | LINUX => [ev_tcgetattr; ev_tcgetattr; ev_tcsetattr true; ev_getchar;
                ev_tcsetattr false]
    end.

(** What [terminate] does after the diagnostic. *)
Definition shutdown (w : world) : list event :=
  ([ev_log_colored nl CRDEF_ERROR]
   ++ (if debugout_open w then [ev_debug_closedebugout] else [])
   ++ (if device_open w then [ev_device_close] else [])
   ++ [ev_log_colored ("Press any key to continue..." ++ nl) CRDEF_INPUT]
   ++ keypress w
   ++ [ev_set_terminating; ev_term_end])%list.

(** The world [terminate] leaves behind, [diag] being what it printed
    first. *)
Definition terminated (w : world) (diag : list event) : world :=
  mkWorld (trace w ++ diag ++ shutdown w)%list true (increment w) (lasttime w)
          (debugout_open w) (device_open w) (using_curses w) (device_cart w)
          (binaryout w).

Definition error_line (msg : string) : event :=
  ev_log_colored ("Error: " ++ msg) CRDEF_ERROR.

(** The diagnostic of each enumerator, [None] for those that do not end the
    process; [cart] is the flashcart the user asked for. *)
Definition diagnostic (v : DeviceError) (cart : Z) : option string :=
  match v with
  | DEVICEERR_USBBUSY => Some "USB Device not ready."
  | DEVICEERR_NODEVICES => Some "No FTDI USB devices found."
  | DEVICEERR_CARTFINDFAIL =>
      if cart =? CART_NONE then
        match target with
        | WINDOWS => Some "No flashcart detected"
        | LINUX => Some "No flashcart detected. Are you running sudo?"
        end
      else Some "Requested flashcart not detected."
  | DEVICEERR_CANTOPEN => Some "Could not open USB device."
  | DEVICEERR_RESETFAIL => Some "Unable to reset USB device."
  | DEVICEERR_RESETPORTFAIL => Some "Unable to reset USB port."
  | DEVICEERR_TIMEOUTSETFAIL => Some "Unable to set flashcart timeouts."
  | DEVICEERR_PURGEFAIL => Some "Unable to purge USB contents."
  | DEVICEERR_READFAIL => Some "Unable to read from flashcart."
  | DEVICEERR_WRITEFAIL => Some "Unable to write to flashcart."
  | DEVICEERR_WRITEZERO => Some "Zero bytes were written to flashcart."
  | DEVICEERR_CLOSEFAIL => Some "Unable to close flashcart."
  | DEVICEERR_BITMODEFAIL_RESET => Some "Unable to set bitmode 0."
  | DEVICEERR_BITMODEFAIL_SYNCFIFO => Some "Unable to set bitmode 64."
  | DEVICEERR_SETDTRFAIL => Some "Unable to set DTR line."
  | DEVICEERR_CLEARDTRFAIL => Some "Unable to clear DTR line."
  | DEVICEERR_TXREPLYMISMATCH => Some "Actual bytes written amount is different than desired."
  | DEVICEERR_READCOMPSIGFAIL => Some "Unable to read completion signal."
  | DEVICEERR_NOCOMPSIG => Some "Did not receive completion signal."
  | DEVICEERR_READPACKSIZEFAIL => Some "Unable to read packet size."
  | DEVICEERR_BADPACKSIZE => Some "Wrong read packet size."
  | DEVICEERR_MALLOCFAIL => Some "Malloc failure."
  | DEVICEERR_UPLOADCANCELLED => None
  | DEVICEERR_TIMEOUT => Some "Flashcart timed out."
  | DEVICEERR_64D_8303USB => Some "The 8303 CIC is not supported through USB."
  | DEVICEERR_64D_BADCMP => Some "Received bad CMP signal."
  | DEVICEERR_64D_CANTDEBUG =>
      Some "Please upgrade to firmware 2.05 or higher to access USB debugging."
  | DEVICEERR_64D_BADDMA => Some "Unexpected DMA header."
  | DEVICEERR_SC64_CTRLRESETFAIL => Some "Couldn't perform SC64 controller reset."
  | DEVICEERR_SC64_CTRLRELEASEFAIL => Some "Couldn't release SC64 controller reset."
  | DEVICEERR_SC64_FIRMWARECHECKFAIL => Some "Couldn't get SC64 firmware version."
  | DEVICEERR_SC64_FIRMWAREUNKNOWN => Some "Unknown SC64 firmware version."
  | DEVICEERR_OK => None
  | DEVICEERR_NOTCART => None
  end.

(** The warning of the default branch. *)
Definition unhandled_warning (err : Z) : event :=
  ev_log_colored ("Unhandled device error '" ++ fmt_d 0 err ++ "'." ++ nl) CRDEF_ERROR.

(** The seconds since midnight [gen_filename] compares. *)
Definition time_of_day (now : tm) : Z :=
  tm_hour now * 60 * 60 + tm_min now * 60 + tm_sec now.

(** The six date and time fields of the suffix, and the counter field. *)
Definition stamp (now : tm) : string :=
  fmt_d 2 (Z.rem (tm_year now + 1900) 100) ++ fmt_d 2 (tm_mon now + 1)
  ++ fmt_d 2 (tm_mday now) ++ fmt_d 2 (tm_hour now) ++ fmt_d 2 (tm_min now)
  ++ fmt_d 2 (tm_sec now).

Definition counter_field (inc : Z) : string := fmt_d 2 (Z.rem inc 100).

(** The output directory in front of a generated name. *)
Definition directory (w : world) : string :=
  match binaryout w with
  | Some dir => c_str dir
  | None => ""
  end.

(** The state a call leaves, whatever it returns. *)
Definition state_after {A} (r : result A) (w : world) : world :=
  match r with
  | Returned _ w' => w'
  | Exited _ w' => w'
  | Undefined => w
  end.

(** The statics after the first lines of [gen_filename] ran at [curtime]. *)
Definition ticked (curtime : Z) (w : world) : world :=
  mkWorld (trace w) (global_terminating w)
          (if lasttime w =? curtime then increment w + 1 else 0)
          (if lasttime w =? curtime then lasttime w else curtime)
          (debugout_open w) (device_open w) (using_curses w) (device_cart w)
          (binaryout w).

(** A generated name, from its parts. *)
Definition generated_name (w : world) (filename fileext : string) (now : tm) (inc : Z) : string :=
  directory w ++ c_str filename ++ "-" ++ stamp now ++ counter_field inc ++ "." ++ c_str fileext.

(** One call of [gen_filename] with what it meets, and a run of calls. *)
Record call : Type := mkCall {
  call_now : tm; call_malloc : bool; call_calloc : bool;
  call_filename : string; call_fileext : string
}.

Fixpoint run (calls : list call) (w : world) : world :=
  match calls with
  | [] => w
  | c :: calls' =>
      run calls'
        (state_after
           (gen_filename (call_now c) (call_malloc c) (call_calloc c)
                         (call_filename c) (call_fileext c) w) w)
  end.

(** The number a finite binary32 stands for. *)
Definition float_value (x : spec_float) : Q :=
  match x with
  | S754_finite s m e =>
      let q := if e <? 0 then Zpos m # Z.to_pos (2 ^ (- e))
               else inject_Z (Zpos m * 2 ^ e) in
      if s then Qopp q else q
  | _ => 0%Q
  end.

(** The events of a drawn bar: [done] filled cells, then the empty ones. *)
Definition cell (glyph : string) (color : Z) : event := ev_log_colored glyph color.

Definition glyph_done : string :=
  match target with
  | WINDOWS => String (ascii_of_nat 219) EmptyString
  | LINUX => full_block
  end.

Definition glyph_todo : string :=
  match target with
  | WINDOWS => String (ascii_of_nat 176) EmptyString
  | LINUX => light_shade
  end.

(** ** time_miliseconds *)

(** What the system clock gives at a call: the wMilliseconds field of the
    SYSTEMTIME that GetSystemTime fills, and the struct timeval that
    gettimeofday fills. *)
Record clock : Type := mkClock { wMilliseconds : Z; tv_sec : Z; tv_usec : Z }.

(** The result is a [uint64_t]; the Linux sum is computed in [long long],
    its division truncating. *)
Definition time_miliseconds (now : clock) : Z :=
  match target with
  | WINDOWS => wMilliseconds now mod 2 ^ 64
  | LINUX => (tv_sec now * 1000 + Z.quot (tv_usec now) 1000) mod 2 ^ 64
  end.

(** ** More vocabulary *)

(** [#define DATESIZE 64] *)
Definition DATESIZE : Z := 64.

(** The longest rejected text whose message still fits [temp] in
    [terminate]. *)
Definition longest_rejected (k : kind) : Z :=
  match k with
  | Cart => 229
  | CIC => 240
  | Save => 234
  end.

(** A reading [localtime] can give.  The year is bounded from below only;
    where a statement depends on the sum [tm_year + 1900] staying an [int]
    it says so. *)
Definition calendar (now : tm) : Prop :=
  0 <= tm_sec now <= 60 /\ 0 <= tm_min now <= 59 /\ 0 <= tm_hour now <= 23 /\
  1 <= tm_mday now <= 31 /\ 0 <= tm_mon now <= 11 /\ -1900 <= tm_year now.

Definition midnight (now : tm) : bool :=
  (tm_hour now =? 0) && (tm_min now =? 0) && (tm_sec now =? 0).

Definition is_digit (c : ascii) : bool :=
  (chr_0 <=? char_code c) && (char_code c <=? chr_0 + 9).

Fixpoint all_digits (s : string) : bool :=
  match s with
  | EmptyString => true
  | String c s' => is_digit c && all_digits s'
  end.

(** The events of a drawn bar. *)
Definition bar (text : string) (color : Z) (percent : spec_float) (done todo : nat)
    : list event :=
  ([ev_log_replace (c_str text ++ " [") color]
   ++ repeat (cell glyph_done color) done
   ++ repeat (cell glyph_todo color) todo
   ++ [ev_log_colored
         ("] " ++ fmt_f2 (float_mul percent (float_of_int 100)) ++ "%" ++ nl) color])%list.

(** ** Strings *)

Lemma char_code_inj (c d : ascii) : char_code c = char_code d -> c = d.
Proof.
  unfold char_code. intros H. apply Nat2Z.inj in H.
  rewrite <- (ascii_nat_embedding c), <- (ascii_nat_embedding d). now rewrite H.
Qed.

Lemma char_code_of_nat (n : nat) : (n < 256)%nat -> char_code (ascii_of_nat n) = Z.of_nat n.
Proof. intros H. unfold char_code. now rewrite nat_ascii_embedding. Qed.

Lemma append_empty_r (s : string) : s ++ "" = s.
Proof. induction s; simpl; congruence. Qed.

Lemma append_assoc (a b c : string) : (a ++ b) ++ c = a ++ b ++ c.
Proof. induction a; simpl; congruence. Qed.

Lemma c_str_cstring (s : string) : cstring s = true -> c_str s = s.
Proof.
  induction s as [|c s IH]; simpl; [reflexivity|].
  destruct (char_code c =? 0); simpl; [discriminate|].
  intros H. now rewrite IH.
Qed.

Lemma cstring_append (a b : string) : cstring (a ++ b) = cstring a && cstring b.
Proof. induction a as [|c a IH]; simpl; [reflexivity|]. now rewrite IH, andb_assoc. Qed.

Lemma strcmp_refl (a : string) : strcmp a a = 0.
Proof.
  induction a as [|c a IH]; simpl; [reflexivity|].
  rewrite Z.eqb_refl. now destruct (char_code c =? 0).
Qed.

Lemma strcmp_eq (a b : string) :
  cstring a = true -> cstring b = true -> strcmp a b = 0 -> a = b.
Proof.
  revert b. induction a as [|c a IH]; intros [|d b]; simpl; trivial.
  - destruct (char_code d =? 0) eqn:E; simpl; [discriminate|].
    apply Z.eqb_neq in E. lia.
  - destruct (char_code c =? 0) eqn:E; simpl; [discriminate|].
    apply Z.eqb_neq in E. lia.
  - destruct (char_code c =? 0) eqn:Ec; simpl; [discriminate|].
    destruct (char_code d =? 0) eqn:Ed; simpl; [discriminate|].
    intros Ha Hb.
    destruct (char_code c =? char_code d) eqn:Ecd.
    + apply Z.eqb_eq, char_code_inj in Ecd. subst d.
      intros H. f_equal. now apply IH.
    + apply Z.eqb_neq in Ecd. lia.
Qed.

Lemma first_match_none (table : list string) (i : Z) (s : string) :
  (forall row, In row table -> cstring row = true) ->
  cstring s = true -> ~ In s table -> first_match table i s = None.
Proof.
  revert i. induction table as [|row rows IH]; intros i Hrows Hs Hnot; simpl; [reflexivity|].
  destruct (strcmp row s =? 0) eqn:E.
  - apply Z.eqb_eq in E. apply strcmp_eq in E; trivial.
    + subst. exfalso. apply Hnot. now left.
    + apply Hrows. now left.
  - apply IH; trivial.
    + intros r Hr. apply Hrows. now right.
    + intros Hin. apply Hnot. now right.
Qed.

Lemma strings_cstring (k : kind) (row : string) : In row (strings k) -> cstring row = true.
Proof.
  destruct k; simpl; intros H;
    repeat (destruct H as [H|H]; [subst row; reflexivity|]); destruct H.
Qed.

(** The digit test of the parsers is the shorthand test. *)
Lemma digit_test_shorthand (k : kind) (s : string) :
  cstring s = true ->
  (char_at s 0 >=? chr_0 + first_value k) && (char_at s 0 <=? chr_0 + last_value k)
    && (char_at s 1 =? 0) = shorthand k s.
Proof.
  destruct s as [|c [|c2 s2]]; simpl.
  - intros _. unfold char_at; simpl. destruct k; reflexivity.
  - intros _. unfold char_at; simpl. rewrite andb_true_r. now rewrite Z.geb_leb.
  - destruct (char_code c =? 0); simpl; [discriminate|].
    unfold char_at; simpl.
    destruct (char_code c2 =? 0); simpl; [discriminate|].
    intros _. apply andb_false_r.
Qed.

(** ** The monad *)

Lemma emits_emits (w : world) (a b : list event) :
  emits (emits w a) b = emits w (a ++ b)%list.
Proof. unfold emits; simpl. now rewrite app_assoc. Qed.

Lemma emits_nil (w : world) : emits w [] = w.
Proof. destruct w; unfold emits; simpl. now rewrite app_nil_r. Qed.

Lemma emit_emits (e : event) (w : world) : emit e w = Returned tt (emits w [e]).
Proof. reflexivity. Qed.

(** ** terminate *)

Lemma vsprintf_error (msg : string) :
  vsprintf "Error: %s" [arg_str msg] = Some ("Error: " ++ c_str msg).
Proof. cbn. now rewrite append_empty_r. Qed.

Lemma terminate_shutdown (w : world) (diag : list event) :
  (log_colored nl CRDEF_ERROR [] ;;
   dbg <- debug_getdebugout_notnull ;;
   when dbg (emit ev_debug_closedebugout) ;;
   dev <- device_isopen ;;
   when dev (emit ev_device_close) ;;
   log_colored ("Press any key to continue..." ++ nl) CRDEF_INPUT [] ;;
   curses <- term_isusingcurses ;;
   (if negb curses then
      match target with
      | WINDOWS => emit (ev_system "pause > nul")
      | LINUX =>
          emit ev_tcgetattr ;; emit ev_tcgetattr ;; emit (ev_tcsetattr true) ;;
          emit ev_getchar ;; emit (ev_tcsetattr false)
      end
    else emit ev_getch) ;;
   set_global_terminating ;;
   emit ev_term_end ;;
   exit (-1)) (emits w diag)
  = Exited (-1) (terminated w diag) :> result unit.
Proof.
  unfold terminated, shutdown, keypress.
  destruct w as [tr gt inc last dbg dev curses cart out].
  destruct dbg, dev, curses, target; cbn;
    repeat rewrite <- app_assoc; reflexivity.
Qed.

Lemma terminate_message (fmt : string) (args : list arg) (msg : string) (w : world) :
  strcmp fmt "" <> 0 ->
  vsprintf fmt args = Some msg ->
  Z.of_nat (String.length msg) < 255 ->
  terminate (Some fmt) args w
  = Exited (-1) (terminated w [error_line (c_str msg)]).
Proof.
  intros Hne Hfmt Hlen.
  rewrite <- terminate_shutdown.
  unfold terminate at 1.
  apply Z.eqb_neq in Hne. rewrite Hne. simpl negb. cbv iota.
  rewrite Hfmt. apply Z.ltb_lt in Hlen. rewrite Hlen.
  unfold bind at 1. unfold log_colored at 1. rewrite vsprintf_error.
  rewrite emit_emits. reflexivity.
Qed.

Lemma terminate_silent (reason : option string) (args : list arg) (w : world) :
  match reason with
  | Some fmt => strcmp fmt "" = 0
  | None => True
  end ->
  terminate reason args w = Exited (-1) (terminated w []).
Proof.
  intros H.
  rewrite <- terminate_shutdown. rewrite emits_nil.
  unfold terminate at 1.
  destruct reason as [fmt|]; [rewrite H|]; reflexivity.
Qed.

Lemma terminate_never_returns (reason : option string) (args : list arg) (w : world) :
  ~ returns (terminate reason args w).
Proof.
  assert (Hs : forall d, ~ returns (Exited (-1) (terminated w d) : result unit))
    by (intros d H; exact H).
  destruct reason as [fmt|].
  - destruct (strcmp fmt "" =? 0) eqn:E.
    + apply Z.eqb_eq in E. rewrite (terminate_silent (Some fmt)); auto.
    + apply Z.eqb_neq in E.
      destruct (vsprintf fmt args) as [msg|] eqn:Hf.
      * destruct (Z.of_nat (String.length msg) <? 255) eqn:Hl.
        -- apply Z.ltb_lt in Hl. rewrite (terminate_message fmt args msg); auto.
        -- unfold terminate. apply Z.eqb_neq in E. rewrite E, Hf, Hl. simpl. auto.
      * unfold terminate. apply Z.eqb_neq in E. rewrite E, Hf. simpl. auto.
  - rewrite (terminate_silent None); auto.
Qed.

Lemma bind_terminate {A} (reason : option string) (args : list arg) (k : M A)
    (w w' : world) (status : Z) :
  terminate reason args w = Exited status w' ->
  (terminate reason args ;; k) w = Exited status w'.
Proof. intros H. unfold bind. now rewrite H. Qed.

Lemma bind_never_returns {A} (reason : option string) (args : list arg) (k : M A)
    (w : world) :
  ~ returns ((terminate reason args ;; k) w).
Proof.
  pose proof (terminate_never_returns reason args w) as H.
  unfold bind. destruct (terminate reason args w); simpl in *; auto.
Qed.

(** ** The identifier codec *)

Lemma parse_unknown (k : kind) (s : string) :
  cstring s = true -> shorthand k s = false -> ~ In s (strings k) ->
  parse k s = (terminate (Some (unknown_format k)) [arg_str s] ;; ret (fallback k)).
Proof.
  intros Hs Hshort Hnot.
  pose proof (digit_test_shorthand k s Hs) as Htest. rewrite Hshort in Htest.
  pose proof (first_match_none (strings k) 0 s (strings_cstring k) Hs Hnot) as Hnone.
  destruct k; cbv [first_value last_value strings] in Htest, Hnone;
    cbv [parse cart_strtotype cic_strtotype save_strtotype];
    rewrite Htest, Hnone; reflexivity.
Qed.

Lemma unknown_text_formatted (k : kind) (s : string) :
  cstring s = true -> vsprintf (unknown_format k) [arg_str s] = Some (unknown_text k s).
Proof.
  intros Hs. destruct k; cbn; rewrite (c_str_cstring s Hs); reflexivity.
Qed.

Lemma unknown_text_cstring (k : kind) (s : string) :
  cstring s = true -> cstring (unknown_text k s) = true.
Proof.
  intros Hs. destruct k; unfold unknown_text;
    rewrite !cstring_append, Hs; reflexivity.
Qed.

Lemma unknown_format_nonempty (k : kind) : strcmp (unknown_format k) "" <> 0.
Proof. destruct k; discriminate. Qed.

(** C2: for each identifier kind and every value of its valid range,
    parsing the canonical name that format gives returns the value again;
    the name of a value is row value-1 of the cartridge and save tables and
    row value of the CIC table. *)
Theorem parse_format_roundtrip (k : kind) (v : Z) (w : world) :
  first_value k <= v <= last_value k ->
  (s <- format k v ;; parse k s) w = Returned v w /\
  format k v w = Returned (nth (Z.to_nat (row_of k v)) (strings k) "") w.
Proof.
  intros Hv.
  destruct k; simpl in Hv;
    unfold CART_64DRIVE1, CART_SC64, CIC_6101, CIC_5101, SAVE_EEPROM4K,
      SAVE_FLASHRAMPKMN in Hv.
  - assert (H : v = 1 \/ v = 2 \/ v = 3 \/ v = 4) by lia.
    destruct H as [->|[->|[->| ->]]]; split; reflexivity.
  - assert (H : v = 0 \/ v = 1 \/ v = 2 \/ v = 3 \/ v = 4 \/ v = 5 \/ v = 6 \/ v = 7) by lia.
    destruct H as [->|[->|[->|[->|[->|[->|[->| ->]]]]]]]; split; reflexivity.
  - assert (H : v = 1 \/ v = 2 \/ v = 3 \/ v = 4 \/ v = 5 \/ v = 6) by lia.
    destruct H as [->|[->|[->|[->|[->| ->]]]]]; split; reflexivity.
Qed.

(** The parsers on every C string: parse returns the enum value of a
    one-character digit of the valid range and of an exact canonical name;
    on every other C string, the empty one and longer digit strings among
    them, it calls terminate with a message that holds the text verbatim,
    and no value comes back; the diagnostic is printed and the process
    ends where that message fits the buffer of terminate. *)
Theorem parse_accepts_or_terminates (k : kind) (w : world) :
  (forall d, first_value k <= d <= last_value k ->
     parse k (String (digit_char d) "") w = Returned d w) /\
  (forall i row, nth_error (strings k) i = Some row ->
     parse k row w = Returned (first_value k + Z.of_nat i) w) /\
  (forall s, cstring s = true -> shorthand k s = false -> ~ In s (strings k) ->
     parse k s w = (terminate (Some (unknown_format k)) [arg_str s] ;; ret (fallback k)) w /\
     vsprintf (unknown_format k) [arg_str s] = Some (unknown_text k s) /\
     contains (unknown_text k s) s /\
     ~ returns (parse k s w) /\
     (Z.of_nat (String.length (unknown_text k s)) < 255 ->
      parse k s w = Exited (-1) (terminated w [error_line (unknown_text k s)]))).
Proof.
  split; [|split].
  - intros d Hd.
    destruct k; simpl in Hd;
      unfold CART_64DRIVE1, CART_SC64, CIC_6101, CIC_5101, SAVE_EEPROM4K,
        SAVE_FLASHRAMPKMN in Hd.
    + assert (H : d = 1 \/ d = 2 \/ d = 3 \/ d = 4) by lia.
      destruct H as [->|[->|[->| ->]]]; reflexivity.
    + assert (H : d = 0 \/ d = 1 \/ d = 2 \/ d = 3 \/ d = 4 \/ d = 5 \/ d = 6 \/ d = 7) by lia.
      destruct H as [->|[->|[->|[->|[->|[->|[->| ->]]]]]]]; reflexivity.
    + assert (H : d = 1 \/ d = 2 \/ d = 3 \/ d = 4 \/ d = 5 \/ d = 6) by lia.
      destruct H as [->|[->|[->|[->|[->| ->]]]]]; reflexivity.
  - intros i row H.
    destruct k; simpl in H;
      repeat (destruct i as [|i]; simpl in H; [injection H as <-; reflexivity|]);
      destruct i; discriminate.
  - intros s Hs Hshort Hnot.
    pose proof (parse_unknown k s Hs Hshort Hnot) as Hparse.
    pose proof (unknown_text_formatted k s Hs) as Hfmt.
    repeat split.
    + now rewrite Hparse.
    + exact Hfmt.
    + destruct k; [exists "Unknown flashcart type '" | exists "Unknown CIC '"
                  | exists "Unknown save type '"]; exists "'"; reflexivity.
    + rewrite Hparse. apply bind_never_returns.
    + intros Hlen. rewrite Hparse. apply bind_terminate.
      rewrite (terminate_message _ _ _ w (unknown_format_nonempty k) Hfmt Hlen).
      now rewrite (c_str_cstring _ (unknown_text_cstring k s Hs)).
Qed.

(** C10: for every value of the valid range the row a formatter reads lies
    inside its table (value-1 for cartridge and save, the value itself for
    CIC), so the read is defined and the formatter returns that row. *)
Theorem format_in_bounds (k : kind) (v : Z) (w : world) :
  first_value k <= v <= last_value k ->
  0 <= row_of k v < Z.of_nat (List.length (strings k)) /\
  exists s, index (strings k) (row_of k v) = Some s /\ format k v w = Returned s w.
Proof.
  intros Hv.
  destruct k; simpl in Hv;
    unfold CART_64DRIVE1, CART_SC64, CIC_6101, CIC_5101, SAVE_EEPROM4K,
      SAVE_FLASHRAMPKMN in Hv; simpl row_of; simpl strings.
  - split; [simpl; lia|].
    assert (H : v = 1 \/ v = 2 \/ v = 3 \/ v = 4) by lia.
    destruct H as [->|[->|[->| ->]]]; eexists; split; reflexivity.
  - split; [simpl; lia|].
    assert (H : v = 0 \/ v = 1 \/ v = 2 \/ v = 3 \/ v = 4 \/ v = 5 \/ v = 6 \/ v = 7) by lia.
    destruct H as [->|[->|[->|[->|[->|[->|[->| ->]]]]]]]; eexists; split; reflexivity.
  - split; [simpl; lia|].
    assert (H : v = 1 \/ v = 2 \/ v = 3 \/ v = 4 \/ v = 5 \/ v = 6) by lia.
    destruct H as [->|[->|[->|[->|[->| ->]]]]]; eexists; split; reflexivity.
Qed.

(** C5, amended: terminate runs one forward path.  The diagnostic
    "Error: <message>" is printed in the error colour only when a non-empty
    message was supplied (and fits the 255-byte buffer); the newline in the
    error colour is printed in every case.  Then the debug output is closed
    only if open and the device only if open, the prompt is printed, one key
    is awaited, the terminating flag is set, the terminal is torn down and
    the process ends with status -1. *)
Theorem terminate_protocol (reason : option string) (args : list arg) (w : world)
    (diag : list event) :
  match reason with
  | Some fmt =>
      if strcmp fmt "" =? 0 then diag = []
      else exists msg, vsprintf fmt args = Some msg /\
                       Z.of_nat (String.length msg) < 255 /\
                       diag = [error_line (c_str msg)]
  | None => diag = []
  end ->
  exists w',
    terminate reason args w = Exited (-1) w' /\ -1 <> 0 /\
    global_terminating w' = true /\
    trace w' =
      (trace w ++ diag
       ++ [ev_log_colored nl CRDEF_ERROR]
       ++ (if debugout_open w then [ev_debug_closedebugout] else [])
       ++ (if device_open w then [ev_device_close] else [])
       ++ [ev_log_colored ("Press any key to continue..." ++ nl) CRDEF_INPUT]
       ++ (if using_curses w then [ev_getch]
           else match target with
                | WINDOWS => [ev_system "pause > nul"]
                | LINUX => [ev_tcgetattr; ev_tcgetattr; ev_tcsetattr true;
                            ev_getchar; ev_tcsetattr false]
                end)
       ++ [ev_set_terminating; ev_term_end])%list.
Proof.
  intros Hdiag. exists (terminated w diag).
  split; [|split; [discriminate|split; reflexivity]].
  destruct reason as [fmt|].
  - destruct (strcmp fmt "" =? 0) eqn:E.
    + subst diag. apply Z.eqb_eq in E. now apply (terminate_silent (Some fmt)).
    + destruct Hdiag as (msg & Hfmt & Hlen & ->). apply Z.eqb_neq in E.
      now apply terminate_message.
  - subst diag. now apply (terminate_silent None).
Qed.

(** ** handle_deviceerror *)

Lemma distinct_app_l (a b : list Z) : distinct (a ++ b) = true -> distinct a = true.
Proof.
  induction a as [|x a IH]; simpl; [reflexivity|].
  intros H. apply andb_true_iff in H as [Hx Ha].
  rewrite (IH Ha), andb_true_r.
  rewrite existsb_app, negb_orb in Hx. now apply andb_true_iff in Hx as [Hx _].
Qed.

Lemma distinct_not_in (x : Z) (l : list Z) :
  negb (existsb (Z.eqb x) l) = true -> ~ In x l.
Proof.
  intros H Hin. apply negb_true_iff in H.
  assert (existsb (Z.eqb x) l = true) by (apply existsb_exists; exists x; split; [exact Hin | apply Z.eqb_refl]).
  congruence.
Qed.

Lemma distinct_inj {A} (f : A -> Z) (l : list A) (x y : A) :
  distinct (map f l) = true -> In x l -> In y l -> f x = f y -> x = y.
Proof.
  induction l as [|a l IH]; simpl; [tauto|].
  intros H Hx Hy Hf. apply andb_true_iff in H as [Ha Hl].
  apply distinct_not_in in Ha.
  destruct Hx as [->|Hx], Hy as [->|Hy]; trivial.
  - exfalso. apply Ha. rewrite Hf. now apply in_map.
  - exfalso. apply Ha. rewrite <- Hf. now apply in_map.
  - now apply IH.
Qed.

Lemma switch_hit (v : Z) (cases : list (Z * M unit)) (default body : M unit) :
  distinct (map fst cases) = true -> In (v, body) cases ->
  switch v cases default = body.
Proof.
  induction cases as [|[label b] cases IH]; simpl; [tauto|].
  intros H Hin. apply andb_true_iff in H as [Hl Hc].
  destruct Hin as [Heq|Hin].
  - injection Heq as -> ->. now rewrite Z.eqb_refl.
  - destruct (v =? label) eqn:E.
    + apply Z.eqb_eq in E. subst label. apply distinct_not_in in Hl.
      exfalso. apply Hl. change v with (fst (v, body)). now apply in_map.
    + now apply IH.
Qed.

Lemma switch_miss (v : Z) (cases : list (Z * M unit)) (default : M unit) :
  ~ In v (map fst cases) -> switch v cases default = default.
Proof.
  induction cases as [|[label b] cases IH]; simpl; [reflexivity|].
  intros H. destruct (v =? label) eqn:E.
  - apply Z.eqb_eq in E. subst. tauto.
  - apply IH. tauto.
Qed.

Lemma all_deviceerrors_complete (v : DeviceError) : In v all_deviceerrors.
Proof. destruct v; unfold all_deviceerrors; repeat (try (left; reflexivity); right). Qed.

Section Numbered.

Hypothesis code_distinct : distinct (map code all_deviceerrors) = true.

Lemma code_inj (u v : DeviceError) : code u = code v -> u = v.
Proof.
  apply (distinct_inj code all_deviceerrors); trivial; apply all_deviceerrors_complete.
Qed.

Lemma case_labels_distinct :
  distinct (map code (firstn 32 all_deviceerrors)) = true.
Proof.
  apply (distinct_app_l _ (map code (skipn 32 all_deviceerrors))).
  rewrite <- map_app, firstn_skipn. exact code_distinct.
Qed.

Lemma handle_hit (v : DeviceError) (body : M unit) (w : world) :
  In (code v, body) deviceerror_cases -> handle_deviceerror (code v) w = body w.
Proof.
  intros Hin. unfold handle_deviceerror.
  rewrite (switch_hit _ _ _ body); trivial.
  exact case_labels_distinct.
Qed.

Lemma handle_default (err : Z) (w : world) :
  ~ In err (map code (firstn 32 all_deviceerrors)) ->
  handle_deviceerror err w =
  when (negb (err =? code DEVICEERR_OK) && negb (err =? code DEVICEERR_NOTCART))
       (log_colored ("Unhandled device error '%d'." ++ nl) CRDEF_ERROR [arg_int err]) w.
Proof.
  intros Hnot. unfold handle_deviceerror. now rewrite switch_miss.
Qed.

Lemma sentinel_no_label (v : DeviceError) :
  v = DEVICEERR_OK \/ v = DEVICEERR_NOTCART ->
  ~ In (code v) (map code (firstn 32 all_deviceerrors)).
Proof.
  intros Hv Hin. apply in_map_iff in Hin as (u & Hu & Hin).
  apply code_inj in Hu. subst u.
  destruct Hv as [-> | ->]; simpl in Hin; intuition discriminate.
Qed.

Lemma handle_sentinel (v : DeviceError) (w : world) :
  v = DEVICEERR_OK \/ v = DEVICEERR_NOTCART ->
  handle_deviceerror (code v) w = Returned tt w.
Proof.
  intros Hv. rewrite handle_default by now apply sentinel_no_label.
  destruct Hv as [-> | ->]; rewrite Z.eqb_refl; simpl; [|rewrite andb_false_r]; reflexivity.
Qed.

Lemma vsprintf_unhandled (err : Z) :
  vsprintf ("Unhandled device error '%d'." ++ nl) [arg_int err]
  = Some ("Unhandled device error '" ++ fmt_d 0 err ++ "'." ++ nl).
Proof. reflexivity. Qed.

Lemma handle_unlisted (err : Z) (w : world) :
  (forall v, err <> code v) ->
  handle_deviceerror err w = Returned tt (emits w [unhandled_warning err]).
Proof.
  intros Hnot. rewrite handle_default.
  - destruct (err =? code DEVICEERR_OK) eqn:E1;
      [apply Z.eqb_eq in E1; now apply Hnot in E1|].
    destruct (err =? code DEVICEERR_NOTCART) eqn:E2;
      [apply Z.eqb_eq in E2; now apply Hnot in E2|].
    simpl. unfold log_colored. rewrite vsprintf_unhandled. reflexivity.
  - intros Hin. apply in_map_iff in Hin as (u & Hu & _). symmetry in Hu.
    now apply Hnot in Hu.
Qed.

Lemma handle_cancelled (w : world) :
  handle_deviceerror (code DEVICEERR_UPLOADCANCELLED) w
  = Returned tt (emits w [ev_log_replace ("Upload cancelled by the user." ++ nl) CRDEF_PROGRAM]).
Proof.
  erewrite handle_hit
    by (unfold deviceerror_cases; repeat (try (left; reflexivity); right)).
  reflexivity.
Qed.

Ltac terminate_with_fixed_message :=
  match goal with
  | |- terminate (Some ?f) ?a ?w = Exited _ (terminated _ [error_line ?m]) =>
      rewrite (terminate_message f a m w);
      [reflexivity | discriminate | reflexivity | reflexivity]
  end.

Lemma handle_hard (v : DeviceError) (msg : string) (w : world) :
  diagnostic v (device_cart w) = Some msg ->
  handle_deviceerror (code v) w = Exited (-1) (terminated w [error_line msg]).
Proof.
  intros Hmsg.
  destruct v; simpl in Hmsg; try discriminate;
    erewrite handle_hit
      by (unfold deviceerror_cases; repeat (try (left; reflexivity); right));
    try (injection Hmsg as <-; terminate_with_fixed_message).
  unfold bind, device_getcart.
  destruct (device_cart w =? CART_NONE); [destruct target|];
    injection Hmsg as <-; terminate_with_fixed_message.
Qed.

Lemma diagnostic_none (v : DeviceError) (cart : Z) :
  diagnostic v cart = None ->
  v = DEVICEERR_UPLOADCANCELLED \/ v = DEVICEERR_OK \/ v = DEVICEERR_NOTCART.
Proof.
  destruct v; simpl; try discriminate; auto.
  destruct (cart =? CART_NONE); [destruct target|]; discriminate.
Qed.

Lemma code_decode (err : Z) : (exists v, err = code v) \/ (forall v, err <> code v).
Proof.
  destruct (existsb (fun v => err =? code v) all_deviceerrors) eqn:E.
  - apply existsb_exists in E as (v & _ & Hv). apply Z.eqb_eq in Hv. eauto.
  - right. intros v Hv.
    assert (existsb (fun v => err =? code v) all_deviceerrors = true).
    { apply existsb_exists. exists v. split; [apply all_deviceerrors_complete|now apply Z.eqb_eq]. }
    congruence.
Qed.

(** C1: the classifier is total and every error value has exactly one of
    two outcomes.  An enumerator with a diagnostic ends the process through
    terminate with that fixed text (the cart-not-found text chosen by the
    requested cart and the build target); the cancelled upload, the two
    sentinels and every value that is no enumerator's come back without
    terminate.  The allocation failure terminates. *)
Theorem handle_deviceerror_classifies (err : Z) (w : world) :
  ((exists v msg, err = code v /\ diagnostic v (device_cart w) = Some msg /\
      handle_deviceerror err w = Exited (-1) (terminated w [error_line msg]))
   \/
   ((err = code DEVICEERR_UPLOADCANCELLED \/ err = code DEVICEERR_OK \/
     err = code DEVICEERR_NOTCART \/ forall v, err <> code v) /\
    exists w', handle_deviceerror err w = Returned tt w' /\
               global_terminating w' = global_terminating w)) /\
  (forall v msg, diagnostic v (device_cart w) = Some msg ->
     handle_deviceerror (code v) w = Exited (-1) (terminated w [error_line msg])) /\
  (forall v, diagnostic v (device_cart w) = None ->
     returns (handle_deviceerror (code v) w)) /\
  handle_deviceerror (code DEVICEERR_MALLOCFAIL) w
  = Exited (-1) (terminated w [error_line "Malloc failure."]).
Proof.
  split; [|split; [|split]].
  - destruct (code_decode err) as [[v ->]|Hnot].
    + destruct (diagnostic v (device_cart w)) as [msg|] eqn:Hd.
      * left. exists v, msg. auto using handle_hard.
      * right. apply diagnostic_none in Hd as [-> | Hv].
        -- split; [auto|]. rewrite handle_cancelled. eauto.
        -- split; [destruct Hv as [-> | ->]; auto|].
           rewrite (handle_sentinel v w Hv). eauto.
    + right. split; [auto|]. rewrite (handle_unlisted err w Hnot). eauto.
  - intros v msg. apply handle_hard.
  - intros v Hd. apply diagnostic_none in Hd as [-> | Hv].
    + now rewrite handle_cancelled.
    + now rewrite (handle_sentinel v w Hv).
  - now apply handle_hard.
Qed.

(** C6, amended: classifying DEVICEERR_OK or DEVICEERR_NOTCART returns at
    once, with no log and no terminate; classifying a value that is no
    enumerator's logs "Unhandled device error 'N'." with the number, in the
    error colour, and returns without terminate. *)
Theorem handle_deviceerror_default (w : world) :
  handle_deviceerror (code DEVICEERR_OK) w = Returned tt w /\
  handle_deviceerror (code DEVICEERR_NOTCART) w = Returned tt w /\
  (forall err, (forall v, err <> code v) ->
     handle_deviceerror err w = Returned tt (emits w [unhandled_warning err])).
Proof.
  split; [|split].
  - apply handle_sentinel. now left.
  - apply handle_sentinel. now right.
  - intros err. apply handle_unlisted.
Qed.

End Numbered.

(** ** gen_filename *)

Lemma digit_char_code (d : Z) : 0 <= d < 10 -> char_code (digit_char d) = chr_0 + d.
Proof.
  intros Hd. unfold digit_char. rewrite char_code_of_nat; unfold chr_0 in *; lia.
Qed.

Lemma dec_digits_cstring (fuel : nat) (n : Z) (acc : string) :
  cstring acc = true -> cstring (dec_digits fuel n acc) = true.
Proof.
  revert n acc. induction fuel as [|fuel IH]; intros n acc Hacc; simpl; trivial.
  assert (Hd : cstring (String (digit_char (n mod 10)) acc) = true).
  { simpl. rewrite digit_char_code by (apply Z.mod_pos_bound; lia).
    rewrite Hacc, andb_true_r. apply negb_true_iff, Z.eqb_neq.
    pose proof (Z.mod_pos_bound n 10). unfold chr_0. lia. }
  destruct (n <? 10); [exact Hd | now apply IH].
Qed.

Lemma zeros_cstring (k : nat) : cstring (zeros k) = true.
Proof. induction k; simpl; trivial. Qed.

Lemma fmt_d_cstring (width : nat) (n : Z) : cstring (fmt_d width n) = true.
Proof.
  unfold fmt_d. rewrite !cstring_append, zeros_cstring.
  unfold dec_nonneg. rewrite dec_digits_cstring by reflexivity.
  now destruct (n <? 0).
Qed.

Lemma suffix_cstring (now : tm) (inc : Z) : cstring (stamp now ++ counter_field inc) = true.
Proof.
  unfold stamp, counter_field. now rewrite !cstring_append, !fmt_d_cstring.
Qed.

Lemma vsprintf_suffix (now : tm) (inc : Z) :
  vsprintf "%02d%02d%02d%02d%02d%02d%02d"
    [arg_int (Z.rem (tm_year now + 1900) 100); arg_int (tm_mon now + 1);
     arg_int (tm_mday now); arg_int (tm_hour now); arg_int (tm_min now);
     arg_int (tm_sec now); arg_int (Z.rem inc 100)]
  = Some (stamp now ++ counter_field inc).
Proof.
  unfold stamp, counter_field. cbn -[fmt_d append].
  now rewrite append_empty_r, !append_assoc.
Qed.

Lemma vsprintf_name_dir (dir filename extraname fileext : string) :
  vsprintf "%s%s-%s.%s" [arg_str dir; arg_str filename; arg_str extraname; arg_str fileext]
  = Some (c_str dir ++ c_str filename ++ "-" ++ c_str extraname ++ "." ++ c_str fileext).
Proof. cbn -[c_str append]. now rewrite append_empty_r. Qed.

Lemma vsprintf_name (filename extraname fileext : string) :
  vsprintf "%s-%s.%s" [arg_str filename; arg_str extraname; arg_str fileext]
  = Some (c_str filename ++ "-" ++ c_str extraname ++ "." ++ c_str fileext).
Proof. cbn -[c_str append]. now rewrite append_empty_r. Qed.

Opaque vsprintf.

(** The whole of [gen_filename]: the statics move first, then the name is
    built if both allocations succeed. *)
Lemma gen_filename_run (now : tm) (malloc_ok calloc_ok : bool) (filename fileext : string)
    (w : world) :
  gen_filename now malloc_ok calloc_ok filename fileext w
  = Returned
      (if malloc_ok && calloc_ok
       then Some (generated_name w filename fileext now
                    (increment (ticked (time_of_day now) w)))
       else None)
      (ticked (time_of_day now) w).
Proof.
  unfold gen_filename, generated_name, directory, ticked, time_of_day.
  destruct w as [tr gt inc last dbg dev curses cart out].
  unfold bind at 1. unfold get_lasttime at 1. cbv beta iota. simpl lasttime.
  set (t := tm_hour now * 60 * 60 + tm_min now * 60 + tm_sec now).
  destruct (last =? t) eqn:Et; simpl negb; cbv iota.
  - unfold bind at 1. unfold bind at 1. unfold get_increment at 1, set_increment.
    cbv beta iota. simpl.
    destruct malloc_ok; simpl; [|reflexivity].
    unfold bind at 1. unfold get_increment. cbv beta iota. simpl increment.
    rewrite vsprintf_suffix.
    unfold bind, debug_getbinaryout. simpl binaryout.
    destruct out as [dir|], calloc_ok; simpl; trivial.
    + rewrite vsprintf_name_dir, (c_str_cstring _ (suffix_cstring now (inc + 1))).
      unfold ret. now rewrite !append_assoc.
    + rewrite vsprintf_name, (c_str_cstring _ (suffix_cstring now (inc + 1))).
      unfold ret. now rewrite !append_assoc.
  - unfold bind at 1. unfold bind at 1. unfold set_increment, set_lasttime.
    cbv beta iota. simpl.
    destruct malloc_ok; simpl; [|reflexivity].
    unfold bind at 1. unfold get_increment. cbv beta iota. simpl increment.
    rewrite vsprintf_suffix.
    unfold bind, debug_getbinaryout. simpl binaryout.
    destruct out as [dir|], calloc_ok; simpl; trivial.
    + rewrite vsprintf_name_dir, (c_str_cstring _ (suffix_cstring now 0)).
      unfold ret. now rewrite !append_assoc.
    + rewrite vsprintf_name, (c_str_cstring _ (suffix_cstring now 0)).
      unfold ret. now rewrite !append_assoc.
Qed.


Transparent vsprintf.

Lemma state_after_gen_filename (now : tm) (m c : bool) (f e : string) (w : world) :
  state_after (gen_filename now m c f e w) w = ticked (time_of_day now) w.
Proof. now rewrite gen_filename_run. Qed.

Lemma ticked_same (t : Z) (w : world) :
  lasttime w = t -> increment (ticked t w) = increment w + 1 /\ lasttime (ticked t w) = t.
Proof. intros H. unfold ticked; simpl. now rewrite H, Z.eqb_refl. Qed.

Lemma ticked_other (t : Z) (w : world) :
  lasttime w <> t -> increment (ticked t w) = 0 /\ lasttime (ticked t w) = t.
Proof.
  intros H. unfold ticked; simpl.
  destruct (lasttime w =? t) eqn:E; [apply Z.eqb_eq in E; congruence|auto].
Qed.

Lemma ticked_lasttime (t : Z) (w : world) : lasttime (ticked t w) = t.
Proof.
  unfold ticked; simpl. destruct (lasttime w =? t) eqn:E; [now apply Z.eqb_eq|reflexivity].
Qed.

Lemma ticked_nonneg (t : Z) (w : world) : 0 <= increment w -> 0 <= increment (ticked t w).
Proof. intros H. unfold ticked; simpl. destruct (lasttime w =? t); lia. Qed.

Lemma run_same_time_of_day (t : Z) (calls : list call) (w : world) :
  Forall (fun k => time_of_day (call_now k) = t) calls ->
  lasttime w = t ->
  increment (run calls w) = increment w + Z.of_nat (List.length calls) /\
  lasttime (run calls w) = t.
Proof.
  revert w. induction calls as [|k calls IH]; intros w Hall Hlast.
  - simpl. split; [lia | exact Hlast].
  - inversion Hall as [|k' calls' Hk Hcalls]; subst k' calls'.
    cbn [run]. rewrite state_after_gen_filename, Hk.
    destruct (ticked_same t w Hlast) as [Hinc Hl].
    destruct (IH (ticked t w) Hcalls Hl) as [Hinc' Hl'].
    rewrite Hinc', Hl', Hinc. split; [|reflexivity].
    cbn [List.length]. lia.
Qed.

(** A counter below one hundred prints as its two digits. *)
Lemma fmt_d_two_digits (n : Z) :
  0 <= n < 100 ->
  fmt_d 2 n = String (digit_char (n / 10)) (String (digit_char (n mod 10)) "").
Proof.
  intros Hn.
  assert (Hall : forallb
            (fun n => String.eqb (fmt_d 2 n)
                        (String (digit_char (n / 10)) (String (digit_char (n mod 10)) "")))
            (map Z.of_nat (seq 0 100)) = true) by (vm_compute; reflexivity).
  rewrite forallb_forall in Hall.
  apply String.eqb_eq, Hall.
  rewrite <- (Z2Nat.id n) by lia. apply in_map, in_seq. lia.
Qed.

Lemma counter_field_length (inc : Z) : 0 <= inc -> String.length (counter_field inc) = 2%nat.
Proof.
  intros Hinc. unfold counter_field.
  rewrite Z.rem_mod_nonneg by lia.
  rewrite fmt_d_two_digits by (apply Z.mod_pos_bound; lia). reflexivity.
Qed.

Lemma counter_field_next (inc : Z) :
  0 <= inc -> counter_field inc <> counter_field (inc + 1).
Proof.
  intros Hinc. unfold counter_field.
  rewrite !Z.rem_mod_nonneg by lia.
  assert (Hne : inc mod 100 <> (inc + 1) mod 100).
  { intros Heq. pose proof (Z.div_mod inc 100). pose proof (Z.div_mod (inc + 1) 100). lia. }
  revert Hne.
  pose proof (Z.mod_pos_bound inc 100) as Ha.
  pose proof (Z.mod_pos_bound (inc + 1) 100) as Hb.
  generalize dependent (inc mod 100). generalize dependent ((inc + 1) mod 100).
  intros b Hb a Ha Hne.
  rewrite !fmt_d_two_digits by lia.
  intros H. injection H as H1 H0.
  apply (f_equal char_code) in H1, H0.
  rewrite !digit_char_code in H1, H0
    by first [ apply Z.mod_pos_bound; lia
             | split; [apply Z.div_pos; lia | apply Z.div_lt_upper_bound; lia] ].
  pose proof (Z.div_mod a 10). pose proof (Z.div_mod b 10). lia.
Qed.

Lemma run_binaryout (calls : list call) (w : world) : binaryout (run calls w) = binaryout w.
Proof.
  revert w. induction calls as [|k calls IH]; intros w; [reflexivity|].
  cbn [run]. now rewrite IH, state_after_gen_filename.
Qed.

Lemma counter_field_same (a b : Z) :
  0 <= a -> 0 <= b ->
  (counter_field a = counter_field b <-> a mod 100 = b mod 100).
Proof.
  intros Ha Hb. unfold counter_field. rewrite !Z.rem_mod_nonneg by lia.
  pose proof (Z.mod_pos_bound a 100) as Ba. pose proof (Z.mod_pos_bound b 100) as Bb.
  split; [|intros H; now rewrite H].
  generalize dependent (a mod 100). generalize dependent (b mod 100).
  intros y Hy x Hx.
  rewrite !fmt_d_two_digits by lia.
  intros H. injection H as H1 H0.
  apply (f_equal char_code) in H1, H0.
  rewrite !digit_char_code in H1, H0
    by first [ apply Z.mod_pos_bound; lia
             | split; [apply Z.div_pos; lia | apply Z.div_lt_upper_bound; lia] ].
  pose proof (Z.div_mod x 10). pose proof (Z.div_mod y 10). lia.
Qed.

(** C4, amended: gen_filename compares the sum hour*3600 + minute*60 +
    second with the one it stored.  A call with the same sum as the call
    before it adds one to the counter, so over any run of such calls the
    counter strictly increases, by one per call; two calls of one
    wall-clock second give suffixes with the same six date and time
    fields, and their two-digit counter fields (the counter modulo 100)
    differ unless the number of calls from one to the other is a multiple
    of 100.  A call whose sum differs from that of the call before it
    resets the counter to zero and stores the new sum. *)
Theorem gen_filename_counter (now : tm) (m c : bool) (f e : string) (w : world) :
  0 <= increment w ->
  let w1 := state_after (gen_filename now m c f e w) w in
  (m = true -> c = true ->
   gen_filename now m c f e w
   = Returned (Some (directory w ++ c_str f ++ "-" ++ stamp now
                     ++ counter_field (increment w1) ++ "." ++ c_str e)) w1) /\
  (forall m' c' f' e',
     let r2 := gen_filename now m' c' f' e' w1 in
     let w2 := state_after r2 w1 in
     increment w2 = increment w1 + 1 /\ lasttime w2 = lasttime w1 /\
     (m' = true -> c' = true ->
      r2 = Returned (Some (directory w ++ c_str f' ++ "-" ++ stamp now
                           ++ counter_field (increment w2) ++ "." ++ c_str e')) w2) /\
     String.length (counter_field (increment w1)) = 2%nat /\
     String.length (counter_field (increment w2)) = 2%nat /\
     counter_field (increment w1) <> counter_field (increment w2)) /\
  (forall calls,
     Forall (fun k => time_of_day (call_now k) = time_of_day now) calls ->
     increment (run calls w1) = increment w1 + Z.of_nat (List.length calls) /\
     lasttime (run calls w1) = lasttime w1) /\
  (forall now' m' c' f' e',
     time_of_day now' <> time_of_day now ->
     let w2 := state_after (gen_filename now' m' c' f' e' w1) w1 in
     increment w2 = 0 /\ lasttime w2 = time_of_day now') /\
  (forall calls m' c' f' e',
     Forall (fun k => time_of_day (call_now k) = time_of_day now) calls ->
     let wn := run calls w1 in
     let r2 := gen_filename now m' c' f' e' wn in
     let w2 := state_after r2 wn in
     increment w2 = increment w1 + Z.of_nat (List.length calls) + 1 /\
     increment w1 < increment w2 /\
     (m' = true -> c' = true ->
      r2 = Returned (Some (directory w ++ c_str f' ++ "-" ++ stamp now
                           ++ counter_field (increment w2) ++ "." ++ c_str e')) w2) /\
     (counter_field (increment w1) = counter_field (increment w2)
      <-> (Z.of_nat (List.length calls) + 1) mod 100 = 0)).
Proof.
  intros Hinc w1. subst w1. rewrite state_after_gen_filename.
  set (t := time_of_day now).
  pose proof (ticked_lasttime t w) as Hlast.
  pose proof (ticked_nonneg t w Hinc) as Hpos.
  destruct (ticked_same t (ticked t w) Hlast) as [Hnext Hlast2].
  split; [|split; [|split; [|split]]].
  - intros -> ->. now rewrite gen_filename_run.
  - intros m' c' f' e' r2 w2. subst w2 r2.
    rewrite state_after_gen_filename. fold t.
    split; [exact Hnext|]. split; [congruence|]. split.
    { intros -> ->. now rewrite gen_filename_run. }
    split; [now apply counter_field_length|].
    split; [apply counter_field_length; lia|].
    rewrite Hnext. now apply counter_field_next.
  - intros calls Hall.
    destruct (run_same_time_of_day t calls (ticked t w) Hall Hlast) as [H1 H2].
    rewrite H1, H2, Hlast. auto.
  - intros now' m' c' f' e' Hne w2. subst w2.
    rewrite state_after_gen_filename.
    apply ticked_other. rewrite Hlast. congruence.
  - intros calls m' c' f' e' Hall wn r2 w2. subst w2 r2 wn.
    rewrite state_after_gen_filename. fold t.
    destruct (run_same_time_of_day t calls (ticked t w) Hall Hlast) as [Hrun Hlastn].
    destruct (ticked_same t (run calls (ticked t w)) Hlastn) as [Hn _].
    assert (Hsum : increment (ticked t (run calls (ticked t w)))
                   = increment (ticked t w) + Z.of_nat (List.length calls) + 1)
      by (rewrite Hn, Hrun; lia).
    split; [exact Hsum|]. split; [lia|]. split.
    { intros -> ->. rewrite gen_filename_run. fold t.
      unfold generated_name, directory.
      now rewrite run_binaryout. }
    rewrite Hsum, counter_field_same by lia.
    set (c0 := increment (ticked t w)) in *. set (n := Z.of_nat (List.length calls)).
    pose proof (Z.div_mod c0 100). pose proof (Z.div_mod (c0 + n + 1) 100).
    pose proof (Z.div_mod (n + 1) 100).
    pose proof (Z.mod_pos_bound c0 100). pose proof (Z.mod_pos_bound (c0 + n + 1) 100).
    pose proof (Z.mod_pos_bound (n + 1) 100).
    split; intros; lia.
Qed.

(** C7: gen_filename always comes back to its caller and calls nothing on
    the way, terminate least of all; it returns null when either allocation
    fails, and otherwise the string made of the output directory (when one
    is set), the base name, "-", the time-and-counter suffix, "." and the
    extension. *)
Theorem gen_filename_null_or_name (now : tm) (m c : bool) (f e : string) (w : world) :
  exists r w',
    gen_filename now m c f e w = Returned r w' /\
    trace w' = trace w /\ global_terminating w' = global_terminating w /\
    (m = false \/ c = false -> r = None) /\
    (m = true -> c = true ->
     r = Some ((match binaryout w with Some dir => c_str dir | None => "" end)
               ++ c_str f ++ "-" ++ stamp now ++ counter_field (increment w')
               ++ "." ++ c_str e)).
Proof.
  rewrite gen_filename_run. do 2 eexists. split; [reflexivity|].
  split; [reflexivity|]. split; [reflexivity|]. split.
  - intros [-> | ->]; [reflexivity | now rewrite andb_false_r].
  - intros -> ->. reflexivity.
Qed.

(** C9: the statics move before any allocation is tried, so the state a
    call leaves does not depend on the allocations: a call that returns
    null has advanced the counter as a successful call would, and the next
    successful call of the same second carries the counter after the one
    the failed call used up. *)
Theorem gen_filename_state_moves_first (now : tm) (m c : bool) (f e : string) (w : world) :
  let w1 := state_after (gen_filename now m c f e w) w in
  (forall m' c' f' e', state_after (gen_filename now m' c' f' e' w) w = w1) /\
  (lasttime w = time_of_day now ->
   increment w1 = increment w + 1 /\ lasttime w1 = lasttime w) /\
  (lasttime w <> time_of_day now ->
   increment w1 = 0 /\ lasttime w1 = time_of_day now) /\
  gen_filename now true true f e w
  = Returned (Some (generated_name w f e now (increment w1))) w1 /\
  (m = false \/ c = false ->
   gen_filename now m c f e w = Returned None w1 /\
   forall f' e', exists w2,
     gen_filename now true true f' e' w1
     = Returned (Some (generated_name w f' e' now (increment w1 + 1))) w2 /\
     increment w2 = increment w1 + 1).
Proof.
  intros w1. subst w1. rewrite state_after_gen_filename.
  set (t := time_of_day now).
  pose proof (ticked_lasttime t w) as Hlast.
  destruct (ticked_same t (ticked t w) Hlast) as [Hnext _].
  split; [|split; [|split; [|split]]].
  - intros. now rewrite state_after_gen_filename.
  - intros H. destruct (ticked_same t w H) as [H1 H2]. split; congruence.
  - intros H. now apply ticked_other.
  - now rewrite gen_filename_run.
  - intros Hfail. split.
    + rewrite gen_filename_run.
      destruct Hfail as [-> | ->]; [reflexivity | now rewrite andb_false_r].
    + intros f' e'. exists (ticked t (ticked t w)).
      rewrite gen_filename_run. fold t.
      split; [rewrite Hnext; reflexivity | exact Hnext].
Qed.

(** ** progressbar_draw *)

Lemma digits2_pos_bounds (m : positive) :
  2 ^ (Zpos (digits2_pos m) - 1) <= Zpos m < 2 ^ Zpos (digits2_pos m).
Proof.
  induction m as [m IH|m IH|]; cbn [digits2_pos].
  - rewrite Pos2Z.inj_succ.
    replace (Z.succ (Zpos (digits2_pos m)) - 1) with (Z.succ (Zpos (digits2_pos m) - 1)) by lia.
    rewrite !Z.pow_succ_r by lia.
    generalize dependent (2 ^ (Zpos (digits2_pos m) - 1)).
    generalize dependent (2 ^ Zpos (digits2_pos m)). intros; lia.
  - rewrite Pos2Z.inj_succ.
    replace (Z.succ (Zpos (digits2_pos m)) - 1) with (Z.succ (Zpos (digits2_pos m) - 1)) by lia.
    rewrite !Z.pow_succ_r by lia.
    generalize dependent (2 ^ (Zpos (digits2_pos m) - 1)).
    generalize dependent (2 ^ Zpos (digits2_pos m)). intros; lia.
  - simpl. lia.
Qed.

Lemma mul_shl23 (m : positive) : (m * 8388608)%positive = shl23 m.
Proof. unfold shl23. lia. Qed.

Lemma shr_exact_cases (m : positive) :
  let r := {| shr_m := Zpos (shl23 m); shr_r := false; shr_s := false |} in
  SpecFloat.iter_pos shr_1 19 r = {| shr_m := Zpos m~0~0~0~0; shr_r := false; shr_s := false |} /\
  SpecFloat.iter_pos shr_1 20 r = {| shr_m := Zpos m~0~0~0; shr_r := false; shr_s := false |} /\
  SpecFloat.iter_pos shr_1 21 r = {| shr_m := Zpos m~0~0; shr_r := false; shr_s := false |} /\
  SpecFloat.iter_pos shr_1 22 r = {| shr_m := Zpos m~0; shr_r := false; shr_s := false |} /\
  SpecFloat.iter_pos shr_1 23 r = {| shr_m := Zpos m; shr_r := false; shr_s := false |}.
Proof. repeat split. Qed.

Lemma round_exact (m m' : positive) (e k : Z) :
  fexp 24 128 (Zpos (digits2_pos m) + e) = e ->
  e <= -23 ->
  0 <= k <= 4 ->
  Zpos m' * 2 ^ k = 16 * Zpos m ->
  Zpos (digits2_pos m') = Zpos (digits2_pos m) + 4 - k ->
  fexp 24 128 (Zpos (digits2_pos m) + 23 + (e + -19)) - (e + -19) = 19 + k ->
  float_to_int
    (let '(mrs'', e'') :=
       shr_fexp 24 128 (Zpos m') (e + -19 + (19 + k)) loc_Exact in
     match shr_m mrs'' with
     | 0 => S754_zero false
     | Zpos m0 => if e'' <=? 128 - 24 then S754_finite false m0 e''
                  else S754_infinity false
     | Zneg _ => S754_nan
     end) = Some (16 * Zpos m / 2 ^ (- e)).
Proof.
  intros Hcanon He Hk Hm' Hd' Hn.
  unfold shr_fexp, fexp, emin in *. cbn [Zdigits2 shr_record_of_loc].
  rewrite Hd'.
  set (d := Zpos (digits2_pos m)) in *.
  replace (Z.max (d + 4 - k + (e + -19 + (19 + k)) - 24) (3 - 128 - 24)
           - (e + -19 + (19 + k))) with 0 by lia.
  cbn [shr shr_m].
  replace (e + -19 + (19 + k) <=? 128 - 24) with true by (symmetry; apply Z.leb_le; lia).
  unfold float_to_int.
  replace (e + -19 + (19 + k) <? 0) with true by (symmetry; apply Z.ltb_lt; lia).
  assert (Hdiv : Zpos m' / 2 ^ (- (e + -19 + (19 + k))) = 16 * Zpos m / 2 ^ (- e)).
  { rewrite <- Hm'.
    replace (- e) with (- (e + -19 + (19 + k)) + k) by lia.
    rewrite Z.pow_add_r by lia.
    rewrite Z.div_mul_cancel_r; [reflexivity | |]; apply Z.pow_nonzero; lia. }
  rewrite Hdiv.
  assert (Hrange : 0 <= 16 * Zpos m / 2 ^ (- e) < 2 ^ 28).
  { rewrite <- Hdiv.
    pose proof (digits2_pos_bounds m') as [_ B]. rewrite Hd' in B.
    assert (2 ^ (d + 4 - k) <= 2 ^ 28) by (apply Z.pow_le_mono_r; lia).
    assert (0 < 2 ^ (- (e + -19 + (19 + k)))) by (apply Z.pow_pos_nonneg; lia).
    split; [apply Z.div_pos; lia|].
    apply Z.div_lt_upper_bound; [lia|]. nia. }
  unfold INT_MIN, INT_MAX.
  replace (- 2 ^ 31 <=? 16 * Zpos m / 2 ^ (- e)) with true
    by (symmetry; apply Z.leb_le; change (2 ^ 31) with 2147483648; lia).
  replace (16 * Zpos m / 2 ^ (- e) <=? 2 ^ 31 - 1) with true
    by (symmetry; apply Z.leb_le; change (2 ^ 31) with 2147483648;
        change (2 ^ 28) with 268435456 in Hrange; lia).
  reflexivity.
Qed.

Lemma blocks_done_exact (m : positive) (e : Z) :
  valid_binary 24 128 (S754_finite false m e) = true ->
  e <= -23 ->
  float_to_int (float_mul (S754_finite false m e) (float_of_int 16))
  = Some ((16 * Zpos m) / 2 ^ (- e)).
Proof.
  intros Hvalid He.
  unfold valid_binary, bounded, canonical_mantissa in Hvalid.
  apply andb_true_iff in Hvalid as [Hcanon _]. apply Z.eqb_eq in Hcanon.
  change (float_of_int 16) with (S754_finite false 8388608 (-19)).
  unfold float_mul, SFmul. cbn [xorb].
  rewrite mul_shl23.
  unfold binary_round_aux.
  unfold shr_fexp at 1. cbn [Zdigits2 shr_record_of_loc].
  assert (Hd : Zpos (digits2_pos (shl23 m)) = Zpos (digits2_pos m) + 23).
  { unfold shl23. cbn [digits2_pos]. lia. }
  rewrite Hd.
  destruct (shr_exact_cases m) as (S19 & S20 & S21 & S22 & S23).
  set (n := fexp 24 128 (Zpos (digits2_pos m) + 23 + (e + -19)) - (e + -19)).
  assert (Hn : n = 19 \/ n = 20 \/ n = 21 \/ n = 22 \/ n = 23)
    by (subst n; unfold fexp, emin in *; lia).
  destruct Hn as [Hn|[Hn|[Hn|[Hn|Hn]]]]; rewrite Hn; cbn [shr];
    [rewrite S19 | rewrite S20 | rewrite S21 | rewrite S22 | rewrite S23];
    cbn [shr_m loc_of_shr_record round_nearest_even].
  - apply (round_exact m _ e 0); trivial; try lia. cbn [digits2_pos]; lia.
  - apply (round_exact m _ e 1); trivial; try lia. cbn [digits2_pos]; lia.
  - apply (round_exact m _ e 2); trivial; try lia. cbn [digits2_pos]; lia.
  - apply (round_exact m _ e 3); trivial; try lia. cbn [digits2_pos]; lia.
  - apply (round_exact m _ e 4); trivial; try lia.
Qed.

Lemma SFleb_finite (m1 m2 : positive) (e1 e2 : Z) :
  SFleb (S754_finite false m1 e1) (S754_finite false m2 e2) = true ->
  e1 < e2 \/ (e1 = e2 /\ Zpos m1 <= Zpos m2).
Proof.
  unfold SFleb, SFcompare. intros H1.
  destruct (Z.compare_spec e1 e2) as [E|E|E]; try discriminate.
  - right. split; [exact E|].
    rewrite Pos.compare_cont_spec in H1. unfold Pos.switch_Eq in H1.
    destruct (m1 ?= m2)%positive eqn:C; try discriminate.
    + apply Pos.compare_eq in C. subst m1. apply Z.le_refl.
    + apply Pos.compare_lt_iff in C. apply Pos2Z.pos_lt_pos in C.
      apply Z.lt_le_incl, C.
  - now left.
Qed.

(** The float product with 16 is exact on [0, 1], so the conversion to
    [int] is the floor of sixteen times the fraction. *)
Lemma blocks_done_floor (percent : spec_float) :
  valid_binary 24 128 percent = true ->
  SFleb (S754_zero false) percent = true ->
  SFleb percent (float_of_int 1) = true ->
  let k := Qfloor (inject_Z 16 * float_value percent) in
  float_to_int (float_mul percent (float_of_int 16)) = Some k /\ 0 <= k <= 16.
Proof.
  intros Hvalid H0 H1.
  destruct percent as [s|s| |s m e].
  - split; [reflexivity | vm_compute; split; discriminate].
  - destruct s; discriminate.
  - discriminate.
  - destruct s; [discriminate|].
    change (float_of_int 1) with (S754_finite false 8388608 (-23)) in H1.
    apply SFleb_finite in H1.
    assert (He : e <= -23) by lia.
    assert (Hm : Zpos m <= 2 ^ (- e)).
    { destruct H1 as [E|[E Hm]].
      - pose proof (digits2_pos_bounds m) as [_ B].
        unfold valid_binary, bounded, canonical_mantissa, fexp, emin in Hvalid.
        apply andb_true_iff in Hvalid as [Hc _]. apply Z.eqb_eq in Hc.
        assert (2 ^ Zpos (digits2_pos m) <= 2 ^ (- e)) by (apply Z.pow_le_mono_r; lia).
        lia.
      - subst e. change (2 ^ (- -23)) with 8388608. exact Hm. }
    assert (Hpow : 0 < 2 ^ (- e)) by (apply Z.pow_pos_nonneg; lia).
    assert (Hfloor : Qfloor (inject_Z 16 * float_value (S754_finite false m e))
                     = 16 * Zpos m / 2 ^ (- e)).
    { unfold float_value.
      replace (e <? 0) with true by (symmetry; apply Z.ltb_lt; lia).
      unfold Qfloor, Qmult, inject_Z. cbn [Qnum Qden].
      rewrite Pos.mul_1_l, Z2Pos.id by exact Hpow. reflexivity. }
    cbv zeta. rewrite Hfloor. split.
    + now apply blocks_done_exact.
    + split; [apply Z.div_pos; lia|].
      apply Z.div_le_upper_bound; lia.
Qed.

(** A counting loop whose body logs one event stops when its test fails,
    after one event per step. *)
Lemma for_lt_emits (ev : event) (body : M unit) (bound : Z) :
  (forall w, body w = Returned tt (emits w [ev])) ->
  forall (fuel : nat) (i : Z) (w : world),
    fuel = Z.to_nat (bound - i) ->
    for_lt fuel i bound body w = Returned (Z.max i bound) (emits w (repeat ev fuel)).
Proof.
  intros Hbody. induction fuel as [|fuel IH]; intros i w Hfuel; simpl.
  - rewrite emits_nil. unfold ret. f_equal. lia.
  - replace (i <? bound) with true by (symmetry; apply Z.ltb_lt; lia).
    unfold bind. rewrite Hbody, IH by lia.
    rewrite emits_emits. simpl. f_equal. lia.
Qed.

Lemma draw_done_emits (color : Z) (w : world) :
  draw_done color w = Returned tt (emits w [cell glyph_done color]).
Proof. unfold draw_done, glyph_done. destruct target; reflexivity. Qed.

Lemma draw_todo_emits (color : Z) (w : world) :
  draw_todo color w = Returned tt (emits w [cell glyph_todo color]).
Proof. unfold draw_todo, glyph_todo. destruct target; reflexivity. Qed.

Lemma vsprintf_head (text : string) :
  vsprintf "%s [" [arg_str text] = Some (c_str text ++ " [").
Proof. reflexivity. Qed.

Lemma vsprintf_percent (x : spec_float) :
  vsprintf ("] %.02f%%" ++ nl) [arg_double x] = Some ("] " ++ fmt_f2 x ++ "%" ++ nl).
Proof. reflexivity. Qed.

(** The trace of a bar once the number [k] of filled cells is known. *)
Lemma progressbar_draw_run (text : string) (color : Z) (percent : spec_float)
    (k : Z) (w : world) :
  float_to_int (float_mul percent (float_of_int 16)) = Some k ->
  0 <= k <= 16 ->
  progressbar_draw text color percent w
  = Returned tt
      (emits w
         ([ev_log_replace (c_str text ++ " [") color]
          ++ repeat (cell glyph_done color) (Z.to_nat k)
          ++ repeat (cell glyph_todo color) (16 - Z.to_nat k)
          ++ [ev_log_colored
                ("] " ++ fmt_f2 (float_mul percent (float_of_int 100)) ++ "%" ++ nl)
                color])%list).
Proof.
  intros Hk Hrange. unfold progressbar_draw. cbv zeta. rewrite Hk.
  unfold bind at 1. unfold log_replace. rewrite vsprintf_head, emit_emits.
  unfold bind at 1.
  rewrite (for_lt_emits (cell glyph_done color) _ k (draw_done_emits color)) by reflexivity.
  rewrite Z.max_r by lia.
  unfold bind at 1.
  rewrite (for_lt_emits (cell glyph_todo color) _ 16 (draw_todo_emits color)) by reflexivity.
  unfold log_colored. rewrite vsprintf_percent, emit_emits.
  rewrite !emits_emits.
  replace (Z.to_nat (k - 0)) with (Z.to_nat k) by lia.
  replace (Z.to_nat (16 - k)) with (16 - Z.to_nat k)%nat by lia.
  reflexivity.
Qed.

(** C8: for a fraction between 0 and 1 the bar has floor(fraction * 16)
    filled cells, then the empty cells that make sixteen, then the label
    with fraction * 100 at two decimals; 0.0 gives no filled cell and
    "0.00%", 0.5 gives eight filled cells, 1.0 gives sixteen and
    "100.00%". *)
Theorem progressbar_draw_cells (text : string) (color : Z) (w : world) :
  (forall percent,
     valid_binary 24 128 percent = true ->
     SFleb (S754_zero false) percent = true ->
     SFleb percent (float_of_int 1) = true ->
     let filled := Z.to_nat (Qfloor (inject_Z 16 * float_value percent)) in
     (filled <= 16)%nat /\
     progressbar_draw text color percent w
     = Returned tt
         (emits w
            ([ev_log_replace (c_str text ++ " [") color]
             ++ repeat (cell glyph_done color) filled
             ++ repeat (cell glyph_todo color) (16 - filled)
             ++ [ev_log_colored
                   ("] " ++ fmt_f2 (float_mul percent (float_of_int 100)) ++ "%" ++ nl)
                   color])%list)) /\
  progressbar_draw text color (S754_zero false) w
  = Returned tt
      (emits w
         ([ev_log_replace (c_str text ++ " [") color]
          ++ repeat (cell glyph_todo color) 16
          ++ [ev_log_colored ("] 0.00%" ++ nl) color])%list) /\
  progressbar_draw text color (S754_finite false 8388608 (-24)) w
  = Returned tt
      (emits w
         ([ev_log_replace (c_str text ++ " [") color]
          ++ repeat (cell glyph_done color) 8
          ++ repeat (cell glyph_todo color) 8
          ++ [ev_log_colored ("] 50.00%" ++ nl) color])%list) /\
  progressbar_draw text color (float_of_int 1) w
  = Returned tt
      (emits w
         ([ev_log_replace (c_str text ++ " [") color]
          ++ repeat (cell glyph_done color) 16
          ++ [ev_log_colored ("] 100.00%" ++ nl) color])%list).
Proof.
  split; [|split; [|split]].
  - intros percent Hvalid H0 H1 filled. subst filled.
    destruct (blocks_done_floor percent Hvalid H0 H1) as [Hk Hrange].
    split; [lia|]. now apply progressbar_draw_run.
  - rewrite (progressbar_draw_run text color _ 0); [reflexivity | reflexivity | lia].
  - rewrite (progressbar_draw_run text color _ 8); [reflexivity | reflexivity | lia].
  - rewrite (progressbar_draw_run text color _ 16); [reflexivity | reflexivity | lia].
Qed.

(** ** Further properties of the identifier codec *)

Lemma first_match_range (table : list string) (i0 i : Z) (s : string) :
  first_match table i0 s = Some i -> i0 <= i < i0 + Z.of_nat (List.length table).
Proof.
  revert i0. induction table as [|row rows IH]; intros i0; simpl; [discriminate|].
  destruct (strcmp row s =? 0).
  - intros H. injection H as <-. lia.
  - intros H. apply IH in H. lia.
Qed.

Lemma first_match_row (table : list string) (i0 i : Z) (s : string) :
  first_match table i0 s = Some i ->
  exists row, nth_error table (Z.to_nat (i - i0)) = Some row /\ strcmp row s = 0.
Proof.
  revert i0. induction table as [|row rows IH]; intros i0; simpl; [discriminate|].
  destruct (strcmp row s =? 0) eqn:E.
  - intros H. injection H as <-. exists row. rewrite Z.sub_diag. split; [reflexivity|].
    now apply Z.eqb_eq.
  - intros H. pose proof (first_match_range _ _ _ _ H) as Hr.
    destruct (IH _ H) as (r & Hnth & Hcmp). exists r. split; [|exact Hcmp].
    replace (Z.to_nat (i - i0)) with (S (Z.to_nat (i - (i0 + 1)))) by lia.
    exact Hnth.
Qed.

(** The three parsers share one shape. *)
Lemma parse_unfold (k : kind) (s : string) :
  parse k s =
  if (char_at s 0 >=? chr_0 + first_value k) && (char_at s 0 <=? chr_0 + last_value k)
       && (char_at s 1 =? 0)
  then ret (char_at s 0 - chr_0)
  else
    match first_match (strings k) 0 s with
    | Some i => ret (first_value k + i)
    | None => terminate (Some (unknown_format k)) [arg_str s] ;; ret (fallback k)
    end.
Proof.
  destruct k; cbv [parse cart_strtotype cic_strtotype save_strtotype first_value
                   last_value strings unknown_format fallback];
    match goal with |- context [if ?t then _ else _] => destruct t end; trivial;
    destruct (first_match _ 0 s); trivial; f_equal;
    unfold CART_64DRIVE1, CIC_6101, SAVE_EEPROM4K; lia.
Qed.

Lemma parse_returned (k : kind) (s : string) (w w' : world) (v : Z) :
  parse k s w = Returned v w' ->
  w' = w /\
  ((char_at s 0 >=? chr_0 + first_value k) && (char_at s 0 <=? chr_0 + last_value k)
     && (char_at s 1 =? 0) = true /\ v = char_at s 0 - chr_0
   \/
   (char_at s 0 >=? chr_0 + first_value k) && (char_at s 0 <=? chr_0 + last_value k)
     && (char_at s 1 =? 0) = false /\
   exists i, first_match (strings k) 0 s = Some i /\ v = first_value k + i).
Proof.
  rewrite parse_unfold.
  destruct ((char_at s 0 >=? chr_0 + first_value k)
            && (char_at s 0 <=? chr_0 + last_value k) && (char_at s 1 =? 0)) eqn:T.
  - unfold ret. intros H. injection H as <- <-. auto.
  - destruct (first_match (strings k) 0 s) as [i|] eqn:F.
    + unfold ret. intros H. injection H as <- <-. split; [reflexivity|]. right. eauto.
    + intros H. exfalso.
      apply (bind_never_returns (Some (unknown_format k)) [arg_str s] (ret (fallback k)) w).
      now rewrite H.
Qed.

Lemma strings_length (k : kind) :
  Z.of_nat (List.length (strings k)) = last_value k - first_value k + 1.
Proof. destruct k; reflexivity. Qed.

(** X1: a value a parser returns lies in the valid range of its enum (so a
    cartridge or save type that comes back is never the NONE sentinel of
    the fallback line), and the call leaves the process state as it was. *)
Theorem parse_returns_valid_value (k : kind) (s : string) (w w' : world) (v : Z) :
  parse k s w = Returned v w' ->
  first_value k <= v <= last_value k /\ w' = w.
Proof.
  intros H. apply parse_returned in H as [-> [[T ->]|[_ (i & F & ->)]]];
    (split; [|reflexivity]).
  - apply andb_true_iff in T as [T _]. apply andb_true_iff in T as [T1 T2].
    rewrite Z.geb_leb in T1. apply Z.leb_le in T1, T2. lia.
  - apply first_match_range in F. pose proof (strings_length k). lia.
Qed.

Lemma index_outside {A} (table : list A) (i : Z) :
  i < 0 \/ Z.of_nat (List.length table) <= i -> index table i = None.
Proof.
  intros H. unfold index. destruct (i <? 0) eqn:E; [reflexivity|].
  apply Z.ltb_ge in E. apply nth_error_None. lia.
Qed.

Lemma format_index (k : kind) (v : Z) :
  format k v =
  match index (strings k) (row_of k v) with
  | Some s => ret s
  | None => undefined
  end.
Proof. destruct k; reflexivity. Qed.

Lemma row_of_value (k : kind) (i : Z) : row_of k (first_value k + i) = i.
Proof.
  destruct k; cbv [row_of first_value]; unfold CART_64DRIVE1, CIC_6101, SAVE_EEPROM4K; lia.
Qed.

Lemma format_outside (k : kind) (v : Z) (w : world) :
  v < first_value k \/ last_value k < v -> format k v w = Undefined.
Proof.
  intros H. rewrite format_index, index_outside; [reflexivity|].
  pose proof (strings_length k) as L. pose proof (row_of_value k (v - first_value k)) as R.
  replace (first_value k + (v - first_value k)) with v in R by lia.
  lia.
Qed.

(** X2: outside the valid range a formatter reads outside its table, so
    its behaviour is undefined; this is so at the NONE sentinel of the
    cartridge and save enums and at one past the last value. *)
Theorem format_outside_range (k : kind) (v : Z) (w : world) :
  (v < first_value k \/ last_value k < v -> format k v w = Undefined) /\
  format Cart CART_NONE w = Undefined /\ format Save SAVE_NONE w = Undefined /\
  format k (last_value k + 1) w = Undefined.
Proof.
  split; [apply format_outside|]. split; [|split].
  - apply format_outside. left. reflexivity.
  - apply format_outside. left. reflexivity.
  - apply format_outside. right. lia.
Qed.

Lemma format_row (k : kind) (i : Z) (row : string) (w : world) :
  0 <= i -> nth_error (strings k) (Z.to_nat i) = Some row ->
  format k (first_value k + i) w = Returned row w.
Proof.
  intros Hi Hrow. rewrite format_index, row_of_value. unfold index.
  replace (i <? 0) with false by (symmetry; apply Z.ltb_ge; lia).
  now rewrite Hrow.
Qed.

Lemma parse_row (k : kind) (i : nat) (row : string) (w : world) :
  nth_error (strings k) i = Some row ->
  parse k row w = Returned (first_value k + Z.of_nat i) w.
Proof.
  intros H.
  destruct k; simpl in H;
    repeat (destruct i as [|i]; simpl in H; [injection H as <-; reflexivity|]);
    destruct i; discriminate.
Qed.

(** X3: what a parser accepts, its formatter gives back in canonical form:
    if parse returns a value for a text, format of that value returns a name
    of the table which parses to the same value, and that name is the text
    itself unless the text was the one-digit shorthand. *)
Theorem format_parse_canonical (k : kind) (s : string) (w w' : world) (v : Z) :
  parse k s w = Returned v w' ->
  exists name,
    format k v w = Returned name w /\ In name (strings k) /\
    parse k name w = Returned v w /\
    (cstring s = true -> shorthand k s = false -> name = s).
Proof.
  intros H.
  pose proof (strings_length k) as L.
  assert (Hv : first_value k <= v <= last_value k).
  { destruct (parse_returned k s w w' v H) as [_ [[T ->]|[_ (i & F & ->)]]].
    - apply andb_true_iff in T as [T _]. apply andb_true_iff in T as [T1 T2].
      rewrite Z.geb_leb in T1. apply Z.leb_le in T1, T2. lia.
    - apply first_match_range in F. lia. }
  destruct (nth_error (strings k) (Z.to_nat (v - first_value k))) as [row|] eqn:Hrow;
    [|apply nth_error_None in Hrow; lia].
  exists row.
  assert (Hfmt : format k v w = Returned row w).
  { replace v with (first_value k + (v - first_value k)) at 1 by lia.
    apply format_row; [lia | exact Hrow]. }
  split; [exact Hfmt|]. split; [now apply nth_error_In in Hrow|]. split.
  - rewrite (parse_row k _ row w Hrow). f_equal. lia.
  - intros Hs Hshort.
    apply parse_returned in H as [_ [[T _]|[_ (i & F & Hi)]]].
    + rewrite (digit_test_shorthand k s Hs) in T. congruence.
    + apply first_match_row in F as (row' & Hrow' & Hcmp).
      replace (i - 0) with (v - first_value k) in Hrow' by lia.
      rewrite Hrow in Hrow'. injection Hrow' as <-.
      apply strcmp_eq; trivial. apply (strings_cstring k).
      now apply nth_error_In in Hrow.
Qed.

Lemma format_returned_range (k : kind) (v : Z) (w w' : world) (s : string) :
  format k v w = Returned s w' -> first_value k <= v <= last_value k.
Proof.
  intros H.
  destruct (Z.lt_ge_cases v (first_value k)) as [Hlo|Hlo];
    [rewrite format_outside in H by (now left); discriminate|].
  destruct (Z.lt_ge_cases (last_value k) v) as [Hhi|Hhi];
    [rewrite format_outside in H by (now right); discriminate|].
  lia.
Qed.

Lemma strings_NoDup (k : kind) : NoDup (strings k).
Proof. destruct k; repeat constructor; simpl; intuition discriminate. Qed.

(** X4: a formatter gives different values different names; a name it
    returns names one value only. *)
Theorem format_injective (k : kind) (v v' : Z) (w w' : world) (s : string) :
  format k v w = Returned s w' -> format k v' w = Returned s w' -> v = v'.
Proof.
  intros H H'.
  pose proof (format_returned_range _ _ _ _ _ H) as Hv.
  pose proof (format_returned_range _ _ _ _ _ H') as Hv'.
  pose proof (strings_length k) as L.
  destruct (nth_error (strings k) (Z.to_nat (v - first_value k))) as [row|] eqn:Hrow;
    [|apply nth_error_None in Hrow; lia].
  destruct (nth_error (strings k) (Z.to_nat (v' - first_value k))) as [row'|] eqn:Hrow';
    [|apply nth_error_None in Hrow'; lia].
  replace v with (first_value k + (v - first_value k)) in H by lia.
  replace v' with (first_value k + (v' - first_value k)) in H' by lia.
  rewrite (format_row k _ row w) in H by (trivial; lia).
  rewrite (format_row k _ row' w) in H' by (trivial; lia).
  injection H as <- _. injection H' as -> _.
  assert (E : Z.to_nat (v - first_value k) = Z.to_nat (v' - first_value k)).
  { apply (proj1 (NoDup_nth_error (strings k)) (strings_NoDup k)); [lia|].
    now rewrite Hrow, Hrow'. }
  lia.
Qed.

(** ** Further properties of terminate *)

Lemma string_length_append (a b : string) :
  String.length (a ++ b) = (String.length a + String.length b)%nat.
Proof. induction a as [|c a IH]; simpl; [reflexivity|]. now rewrite IH. Qed.

Lemma terminate_overrun (fmt : string) (args : list arg) (w : world) :
  strcmp fmt "" <> 0 ->
  match vsprintf fmt args with
  | Some msg => 255 <= Z.of_nat (String.length msg)
  | None => True
  end ->
  terminate (Some fmt) args w = Undefined.
Proof.
  intros Hne Hmsg. unfold terminate. apply Z.eqb_neq in Hne. rewrite Hne. simpl negb.
  cbv iota. destruct (vsprintf fmt args) as [msg|]; [|reflexivity].
  replace (Z.of_nat (String.length msg) <? 255) with false
    by (symmetry; apply Z.ltb_ge; exact Hmsg).
  reflexivity.
Qed.

(** X6: terminate never gives control back.  Whatever the reason, the
    arguments and the state, it ends the process with status -1, the
    terminating flag set and the whole shutdown sequence on the trace, or
    its behaviour is undefined.  Without a reason, or with the empty one,
    it always ends the process; with a non-empty reason that formats to a
    message, the behaviour is undefined exactly when the message has 255
    bytes or more, which overruns the buffer of 255. *)
Theorem terminate_never_comes_back (reason : option string) (args : list arg) (w : world) :
  ~ returns (terminate reason args w) /\
  (forall status w', terminate reason args w = Exited status w' ->
     status = -1 /\
     exists diag, w' = terminated w diag /\
                  (diag = [] \/ exists msg, diag = [error_line msg])) /\
  (match reason with
   | Some fmt => strcmp fmt "" = 0
   | None => True
   end -> terminate reason args w = Exited (-1) (terminated w [])) /\
  (forall fmt msg,
     reason = Some fmt -> strcmp fmt "" <> 0 -> vsprintf fmt args = Some msg ->
     (terminate reason args w = Undefined <-> 255 <= Z.of_nat (String.length msg)) /\
     (terminate reason args w = Exited (-1) (terminated w [error_line (c_str msg)])
      <-> Z.of_nat (String.length msg) < 255)).
Proof.
  split; [apply terminate_never_returns|]. split; [|split].
  - destruct reason as [fmt|].
    + destruct (strcmp fmt "" =? 0) eqn:E.
      * apply Z.eqb_eq in E. rewrite (terminate_silent (Some fmt) args w E).
        intros status w' H. injection H as <- <-. split; [reflexivity|].
        exists []. auto.
      * apply Z.eqb_neq in E.
        destruct (vsprintf fmt args) as [msg|] eqn:Hfmt.
        -- destruct (Z.of_nat (String.length msg) <? 255) eqn:Hlen.
           ++ apply Z.ltb_lt in Hlen.
              rewrite (terminate_message fmt args msg w E Hfmt Hlen).
              intros status w' H. injection H as <- <-. split; [reflexivity|].
              exists [error_line (c_str msg)]. eauto.
           ++ apply Z.ltb_ge in Hlen.
              rewrite terminate_overrun by (trivial; rewrite Hfmt; exact Hlen).
              discriminate.
        -- rewrite terminate_overrun by (trivial; now rewrite Hfmt). discriminate.
    + rewrite (terminate_silent None args w I).
      intros status w' H. injection H as <- <-. split; [reflexivity|]. exists []. auto.
  - apply terminate_silent.
  - intros fmt msg -> Hne Hfmt.
    destruct (Z.of_nat (String.length msg) <? 255) eqn:Hlen.
    + apply Z.ltb_lt in Hlen. rewrite (terminate_message fmt args msg w Hne Hfmt Hlen).
      split; split; trivial; try discriminate; lia.
    + apply Z.ltb_ge in Hlen.
      rewrite terminate_overrun by (trivial; rewrite Hfmt; exact Hlen).
      split; split; trivial; try discriminate; lia.
Qed.

Lemma unknown_text_length (k : kind) (s : string) :
  Z.of_nat (String.length (unknown_text k s))
  = 254 - longest_rejected k + Z.of_nat (String.length s).
Proof.
  destruct k; unfold unknown_text, longest_rejected;
    rewrite !string_length_append; simpl String.length; lia.
Qed.

(** X5: a rejected text ends the process cleanly only while its message
    fits the 255-byte buffer of terminate: up to 229 bytes for a cartridge
    name, 240 for a CIC and 234 for a save type the diagnostic is printed
    and the process exits with -1; one byte more overruns the buffer and
    the behaviour is undefined. *)
Theorem parse_rejection_buffer (k : kind) (s : string) (w : world) :
  cstring s = true -> shorthand k s = false -> ~ In s (strings k) ->
  (Z.of_nat (String.length s) <= longest_rejected k ->
   parse k s w = Exited (-1) (terminated w [error_line (unknown_text k s)])) /\
  (longest_rejected k < Z.of_nat (String.length s) -> parse k s w = Undefined).
Proof.
  intros Hs Hshort Hnot.
  rewrite (parse_unknown k s Hs Hshort Hnot).
  pose proof (unknown_text_formatted k s Hs) as Hfmt.
  pose proof (unknown_text_length k s) as Hlen.
  split; intros Hsize.
  - apply bind_terminate.
    rewrite (terminate_message _ _ _ w (unknown_format_nonempty k) Hfmt) by lia.
    now rewrite (c_str_cstring _ (unknown_text_cstring k s Hs)).
  - unfold bind. rewrite terminate_overrun; [reflexivity | apply unknown_format_nonempty |].
    rewrite Hfmt. lia.
Qed.

(** ** Further properties of handle_deviceerror *)

Lemma diagnostic_inj (v v' : DeviceError) (cart cart' : Z) (msg : string) :
  diagnostic v cart = Some msg -> diagnostic v' cart' = Some msg -> v = v'.
Proof.
  intros H H'.
  destruct v, v'; try reflexivity; exfalso;
    simpl in H, H'; try discriminate H; try discriminate H';
    rewrite <- H' in H; revert H;
    repeat match goal with |- context [if ?c then _ else _] => destruct c end;
    try destruct target; discriminate.
Qed.

Section Unambiguous.

Hypothesis code_distinct : distinct (map code all_deviceerrors) = true.

Lemma handle_exit_diagnostic (v : DeviceError) (w : world) (msg : string) :
  handle_deviceerror (code v) w = Exited (-1) (terminated w [error_line msg]) ->
  diagnostic v (device_cart w) = Some msg.
Proof.
  intros H.
  destruct (diagnostic v (device_cart w)) as [m|] eqn:D.
  - rewrite (handle_hard code_distinct v m w D) in H.
    injection H as H. apply app_inv_head in H. injection H as H. now subst m.
  - apply diagnostic_none in D as [-> | D].
    + rewrite (handle_cancelled code_distinct) in H. discriminate.
    + rewrite (handle_sentinel code_distinct v w D) in H. discriminate.
Qed.

(** X7: the diagnostics tell the errors apart: when two classifications end
    the process with the same error line, they classified the same
    enumerator, whatever the requested cart was each time. *)
Theorem diagnostics_unambiguous (v v' : DeviceError) (w w' : world) (msg : string) :
  handle_deviceerror (code v) w = Exited (-1) (terminated w [error_line msg]) ->
  handle_deviceerror (code v') w' = Exited (-1) (terminated w' [error_line msg]) ->
  v = v'.
Proof.
  intros H H'. apply handle_exit_diagnostic in H, H'.
  exact (diagnostic_inj v v' _ _ msg H H').
Qed.

End Unambiguous.

(** ** Further properties of gen_filename *)

Lemma append_inv_head (a x y : string) : a ++ x = a ++ y -> x = y.
Proof. induction a as [|c a IH]; simpl; [trivial|]. intros H. injection H as H. auto. Qed.

Lemma counter_field_two_digits (inc : Z) :
  0 <= inc ->
  counter_field inc
  = String (digit_char (inc mod 100 / 10)) (String (digit_char (inc mod 100 mod 10)) "").
Proof.
  intros H. unfold counter_field. rewrite Z.rem_mod_nonneg by lia.
  apply fmt_d_two_digits. apply Z.mod_pos_bound. lia.
Qed.

Lemma two_digits_inj (a b : Z) :
  0 <= a < 100 -> 0 <= b < 100 ->
  digit_char (a / 10) = digit_char (b / 10) ->
  digit_char (a mod 10) = digit_char (b mod 10) -> a = b.
Proof.
  intros Ha Hb H1 H0.
  apply (f_equal char_code) in H1, H0.
  rewrite !digit_char_code in H1, H0
    by first [ apply Z.mod_pos_bound; lia
             | split; [apply Z.div_pos; lia | apply Z.div_lt_upper_bound; lia] ].
  pose proof (Z.div_mod a 10). pose proof (Z.div_mod b 10). lia.
Qed.

Lemma generated_name_eq (w : world) (f e : string) (now : tm) (a b : Z) :
  0 <= a -> 0 <= b ->
  (generated_name w f e now a = generated_name w f e now b <-> a mod 100 = b mod 100).
Proof.
  intros Ha Hb. unfold generated_name.
  rewrite !counter_field_two_digits by assumption.
  pose proof (Z.mod_pos_bound a 100) as Ba. pose proof (Z.mod_pos_bound b 100) as Bb.
  split.
  - intros H. do 2 apply append_inv_head in H. simpl in H. injection H as H.
    apply append_inv_head in H. simpl in H. injection H as H1 H0.
    apply two_digits_inj; trivial; lia.
  - intros H. now rewrite H.
Qed.

(** X8: the documented wrap of the counter, exactly.  Two names generated
    for the same base name and extension in one second, with any calls of
    that second in between, are equal if and only if the number of calls
    from the first to the second is a multiple of 100. *)
Theorem gen_filename_collides (now : tm) (f e : string) (w : world) (calls : list call) :
  0 <= increment w ->
  Forall (fun k => time_of_day (call_now k) = time_of_day now) calls ->
  exists n1 n2 w1 w2,
    gen_filename now true true f e w = Returned (Some n1) w1 /\
    gen_filename now true true f e (run calls w1) = Returned (Some n2) w2 /\
    (n1 = n2 <-> (Z.of_nat (List.length calls) + 1) mod 100 = 0).
Proof.
  intros Hinc Hall.
  set (t := time_of_day now).
  set (w1 := ticked t w).
  destruct (run_same_time_of_day t calls w1 Hall (ticked_lasttime t w)) as [Hrun Hlast].
  destruct (ticked_same t (run calls w1) Hlast) as [Hnext _].
  pose proof (ticked_nonneg t w Hinc) as Hpos. fold w1 in Hpos.
  exists (generated_name w f e now (increment w1)),
         (generated_name w f e now (increment w1 + Z.of_nat (List.length calls) + 1)),
         w1, (ticked t (run calls w1)).
  split; [now rewrite gen_filename_run|]. split.
  - rewrite gen_filename_run. fold t. rewrite Hnext, Hrun.
    unfold generated_name, directory. now rewrite run_binaryout.
  - rewrite generated_name_eq by lia.
    set (c := increment w1) in *. set (n := Z.of_nat (List.length calls)).
    pose proof (Z.div_mod c 100). pose proof (Z.div_mod (c + n + 1) 100).
    pose proof (Z.div_mod (n + 1) 100).
    pose proof (Z.mod_pos_bound c 100). pose proof (Z.mod_pos_bound (c + n + 1) 100).
    pose proof (Z.mod_pos_bound (n + 1) 100).
    split; intros; lia.
Qed.

Lemma all_digits_append (a b : string) :
  all_digits (a ++ b) = all_digits a && all_digits b.
Proof. induction a as [|c a IH]; simpl; [reflexivity|]. now rewrite IH, andb_assoc. Qed.

Lemma fmt_d_field (n : Z) :
  0 <= n < 100 -> String.length (fmt_d 2 n) = 2%nat /\ all_digits (fmt_d 2 n) = true.
Proof.
  intros Hn. rewrite (fmt_d_two_digits n Hn). split; [reflexivity|].
  simpl. unfold is_digit.
  rewrite !digit_char_code
    by first [ apply Z.mod_pos_bound; lia
             | split; [apply Z.div_pos; lia | apply Z.div_lt_upper_bound; lia] ].
  assert (0 <= n / 10 < 10)
    by (split; [apply Z.div_pos; lia | apply Z.div_lt_upper_bound; lia]).
  pose proof (Z.mod_pos_bound n 10).
  repeat rewrite (proj2 (Z.leb_le _ _)) by lia. reflexivity.
Qed.

(** X9: at a calendar time whose year sum tm_year + 1900 stays an int,
    the suffix is exactly fourteen decimal digits, so with its terminator
    it fits the DATESIZE bytes allocated for it, and a returned name is as
    long as directory, base name and extension plus sixteen. *)
Theorem gen_filename_suffix_shape (now : tm) (m c : bool) (f e : string) (w w' : world)
    (name : string) :
  calendar now -> tm_year now + 1900 <= INT_MAX -> 0 <= increment w ->
  gen_filename now m c f e w = Returned (Some name) w' ->
  exists suffix,
    name = directory w ++ c_str f ++ "-" ++ suffix ++ "." ++ c_str e /\
    String.length suffix = 14%nat /\ all_digits suffix = true /\
    Z.of_nat (String.length suffix) + 1 <= DATESIZE /\
    String.length name
    = (String.length (directory w) + String.length (c_str f) + 16
       + String.length (c_str e))%nat.
Proof.
  intros (Hsec & Hmin & Hhour & Hmday & Hmon & Hyear) _ Hinc.
  rewrite gen_filename_run. intros H. injection H as Hname _.
  destruct (m && c); [|discriminate]. injection Hname as <-.
  set (inc := increment (ticked (time_of_day now) w)).
  assert (Hpos : 0 <= inc) by now apply ticked_nonneg.
  exists (stamp now ++ counter_field inc).
  assert (Hy : 0 <= Z.rem (tm_year now + 1900) 100 < 100).
  { rewrite Z.rem_mod_nonneg by lia. apply Z.mod_pos_bound. lia. }
  assert (Hc : 0 <= Z.rem inc 100 < 100).
  { rewrite Z.rem_mod_nonneg by lia. apply Z.mod_pos_bound. lia. }
  destruct (fmt_d_field _ Hy) as [L1 D1].
  destruct (fmt_d_field (tm_mon now + 1)) as [L2 D2]; [lia|].
  destruct (fmt_d_field (tm_mday now)) as [L3 D3]; [lia|].
  destruct (fmt_d_field (tm_hour now)) as [L4 D4]; [lia|].
  destruct (fmt_d_field (tm_min now)) as [L5 D5]; [lia|].
  destruct (fmt_d_field (tm_sec now)) as [L6 D6]; [lia|].
  destruct (fmt_d_field _ Hc) as [L7 D7].
  assert (Hlen : String.length (stamp now ++ counter_field inc) = 14%nat).
  { unfold stamp, counter_field. rewrite !string_length_append.
    rewrite L1, L2, L3, L4, L5, L6, L7. reflexivity. }
  split; [|split; [exact Hlen|split; [|split]]].
  - unfold generated_name. now rewrite !append_assoc.
  - unfold stamp, counter_field. rewrite !all_digits_append.
    now rewrite D1, D2, D3, D4, D5, D6, D7.
  - rewrite Hlen. unfold DATESIZE. lia.
  - rewrite string_length_append in Hlen.
    match goal with
    | |- _ = ?r => change (String.length (generated_name w f e now inc) = r)
    end.
    unfold generated_name. rewrite !string_length_append.
    change (String.length "-") with 1%nat. change (String.length ".") with 1%nat. lia.
Qed.

(** X10: the statics start at zero, so the first call of a process numbers
    its name 00 unless it comes at midnight sharp, where the time of day
    equals the initial marker and the name is numbered 01. *)
Theorem gen_filename_first_call (now : tm) (f e : string) (w : world) :
  calendar now -> increment w = 0 -> lasttime w = 0 ->
  exists w',
    gen_filename now true true f e w
    = Returned (Some (directory w ++ c_str f ++ "-" ++ stamp now
                      ++ (if midnight now then "01" else "00") ++ "." ++ c_str e)) w' /\
    increment w' = (if midnight now then 1 else 0) /\ lasttime w' = time_of_day now.
Proof.
  intros (Hsec & Hmin & Hhour & _) Hinc Hlast.
  exists (ticked (time_of_day now) w).
  rewrite gen_filename_run. unfold generated_name.
  assert (Hmid : midnight now = (lasttime w =? time_of_day now)).
  { rewrite Hlast. unfold midnight, time_of_day.
    destruct (tm_hour now =? 0) eqn:E1; [|symmetry; apply Z.eqb_neq; apply Z.eqb_neq in E1; lia].
    destruct (tm_min now =? 0) eqn:E2; [|symmetry; apply Z.eqb_neq; apply Z.eqb_neq in E2; lia].
    destruct (tm_sec now =? 0) eqn:E3; [|symmetry; apply Z.eqb_neq; apply Z.eqb_neq in E3; lia].
    apply Z.eqb_eq in E1, E2, E3. symmetry. apply Z.eqb_eq. lia. }
  assert (Hnew : increment (ticked (time_of_day now) w) = if midnight now then 1 else 0).
  { rewrite Hmid. unfold ticked; simpl. rewrite Hinc.
    now destruct (lasttime w =? time_of_day now). }
  rewrite Hnew. split; [|split; [reflexivity | apply ticked_lasttime]].
  now destruct (midnight now).
Qed.

(** ** Further properties of progressbar_draw *)

Lemma progressbar_draw_any (text : string) (color : Z) (percent : spec_float)
    (k : Z) (w : world) :
  float_to_int (float_mul percent (float_of_int 16)) = Some k ->
  progressbar_draw text color percent w
  = Returned tt
      (emits w (bar text color percent (Z.to_nat k) (Z.to_nat (16 - Z.max 0 k)))).
Proof.
  intros Hk. unfold progressbar_draw, bar. cbv zeta. rewrite Hk.
  unfold bind at 1. unfold log_replace. rewrite vsprintf_head, emit_emits.
  unfold bind at 1.
  rewrite (for_lt_emits (cell glyph_done color) _ k (draw_done_emits color)) by reflexivity.
  unfold bind at 1.
  rewrite (for_lt_emits (cell glyph_todo color) _ 16 (draw_todo_emits color)) by reflexivity.
  unfold log_colored. rewrite vsprintf_percent, emit_emits.
  rewrite !emits_emits.
  replace (Z.to_nat (k - 0)) with (Z.to_nat k) by lia.
  reflexivity.
Qed.

(** X11: the bar is not clamped.  Whatever int k the product of the
    fraction with 16 converts to, k filled cells are drawn (none if k is
    negative) and then empty cells up to sixteen: with k at most zero the
    bar is sixteen empty cells, with k above sixteen it is k cells, more
    than sixteen, all filled.  A fraction that is not a number has no int
    value and leaves the behaviour undefined. *)
Theorem progressbar_draw_unclamped (text : string) (color : Z) (percent : spec_float)
    (k : Z) (w : world) :
  float_to_int (float_mul percent (float_of_int 16)) = Some k ->
  let done := Z.to_nat k in
  let todo := Z.to_nat (16 - Z.max 0 k) in
  progressbar_draw text color percent w
  = Returned tt (emits w (bar text color percent done todo)) /\
  Z.of_nat (done + todo) = Z.max 16 k /\
  (k <= 0 -> done = 0%nat /\ todo = 16%nat) /\
  (16 < k -> (16 < done)%nat /\ todo = 0%nat) /\
  progressbar_draw text color S754_nan w = Undefined.
Proof.
  intros Hk done todo. split; [now apply progressbar_draw_any|].
  subst done todo. repeat split; try lia. 
Qed.

Lemma unit_interval_finite (m : positive) (e : Z) (q : spec_float) :
  valid_binary 24 128 (S754_finite false m e) = true ->
  valid_binary 24 128 q = true ->
  SFleb (S754_finite false m e) q = true ->
  SFleb q (float_of_int 1) = true ->
  exists m' e', q = S754_finite false m' e' /\
    e <= e' <= -23 /\ Zpos m' <= 2 ^ (- e') /\ Zpos m <= 2 ^ (- e) /\
    16 * Zpos m / 2 ^ (- e) <= 16 * Zpos m' / 2 ^ (- e').
Proof.
  intros Vp Vq Hpq Hq1.
  destruct q as [s|s| |s m' e']; try (destruct s; discriminate); try discriminate.
  destruct s; [discriminate|].
  exists m', e'. split; [reflexivity|].
  change (float_of_int 1) with (S754_finite false 8388608 (-23)) in Hq1.
  apply SFleb_finite in Hpq, Hq1.
  pose proof (digits2_pos_bounds m) as [_ Bm].
  pose proof (digits2_pos_bounds m') as [Bm'lo Bm'].
  unfold valid_binary, bounded, canonical_mantissa, fexp, emin in Vp, Vq.
  apply andb_true_iff in Vp as [Cp _]. apply Z.eqb_eq in Cp.
  apply andb_true_iff in Vq as [Cq _]. apply Z.eqb_eq in Cq.
  assert (He' : e' <= -23) by lia.
  assert (Hm' : Zpos m' <= 2 ^ (- e')).
  { destruct Hq1 as [E|[E Hm']].
    - assert (2 ^ Zpos (digits2_pos m') <= 2 ^ (- e')) by (apply Z.pow_le_mono_r; lia).
      lia.
    - subst e'. change (2 ^ (- -23)) with 8388608. exact Hm'. }
  assert (Hm : Zpos m <= 2 ^ (- e)).
  { destruct Hpq as [E|[E Hm]].
    - assert (2 ^ Zpos (digits2_pos m) <= 2 ^ (- e)) by (apply Z.pow_le_mono_r; lia).
      lia.
    - subst e'. lia. }
  split; [lia|]. split; [exact Hm'|]. split; [exact Hm|].
  assert (P' : 0 < 2 ^ (- e')) by (apply Z.pow_pos_nonneg; lia).
  destruct Hpq as [E|[E Hmm]].
  - (* a smaller exponent: the second float is normal *)
    assert (D24 : Zpos (digits2_pos m') = 24) by lia.
    rewrite D24 in Bm'lo. change (2 ^ (24 - 1)) with 8388608 in Bm'lo.
    assert (B24 : Zpos m < 2 ^ 24).
    { assert (2 ^ Zpos (digits2_pos m) <= 2 ^ 24) by (apply Z.pow_le_mono_r; lia). lia. }
    change (2 ^ 24) with 16777216 in B24.
    replace (- e) with ((e' - e) + - e') by lia.
    rewrite Z.pow_add_r by lia.
    assert (P : 2 <= 2 ^ (e' - e)).
    { change 2 with (2 ^ 1) at 1. apply Z.pow_le_mono_r; lia. }
    rewrite <- Z.div_div by lia.
    apply Z.div_le_mono; [lia|].
    apply Z.div_le_upper_bound; [lia|]. nia.
  - subst e'. apply Z.div_le_mono; lia.
Qed.

Lemma blocks_done_unit (m : positive) (e : Z) :
  valid_binary 24 128 (S754_finite false m e) = true ->
  e <= -23 -> Zpos m <= 2 ^ (- e) ->
  float_to_int (float_mul (S754_finite false m e) (float_of_int 16))
  = Some (16 * Zpos m / 2 ^ (- e)) /\
  0 <= 16 * Zpos m / 2 ^ (- e) <= 16.
Proof.
  intros V He Hm. split; [now apply blocks_done_exact|].
  assert (0 < 2 ^ (- e)) by (apply Z.pow_pos_nonneg; lia).
  split; [apply Z.div_pos; lia | apply Z.div_le_upper_bound; lia].
Qed.

(** X12: the bar never goes backwards: of two fractions between 0 and 1,
    the larger one is drawn with at least as many filled cells, and both
    bars are sixteen cells wide. *)
Theorem progressbar_draw_monotone (text : string) (color : Z) (p q : spec_float)
    (w : world) :
  valid_binary 24 128 p = true -> valid_binary 24 128 q = true ->
  SFleb (S754_zero false) p = true -> SFleb p q = true ->
  SFleb q (float_of_int 1) = true ->
  exists kp kq : nat,
    (kp <= kq <= 16)%nat /\
    progressbar_draw text color p w
    = Returned tt (emits w (bar text color p kp (16 - kp))) /\
    progressbar_draw text color q w
    = Returned tt (emits w (bar text color q kq (16 - kq))).
Proof.
  intros Vp Vq H0 Hpq Hq1.
  assert (Hshape : (exists s, p = S754_zero s) \/ (exists m e, p = S754_finite false m e)).
  { destruct p as [s|s| |s m e].
    - eauto.
    - exfalso. destruct s; [discriminate|].
      destruct q as [?|[|]| |? ? ?]; discriminate.
    - discriminate.
    - destruct s; [discriminate|]. eauto. }
  assert (Hq : exists kq, 0 <= kq <= 16 /\
             float_to_int (float_mul q (float_of_int 16)) = Some kq /\
             forall m e, p = S754_finite false m e ->
               Zpos m <= 2 ^ (- e) /\ e <= -23 /\ 16 * Zpos m / 2 ^ (- e) <= kq).
  { destruct Hshape as [[s ->]|(m & e & ->)].
    - assert (H0q : SFleb (S754_zero false) q = true)
        by (destruct q as [?|[|]| |[|] ? ?], s; trivial; discriminate).
      destruct (blocks_done_floor q Vq H0q Hq1) as [Hk Hr].
      eexists. split; [exact Hr|]. split; [exact Hk|]. discriminate.
    - destruct (unit_interval_finite m e q Vp Vq Hpq Hq1)
        as (m' & e' & -> & He & Hm' & Hm & Hle).
      destruct (blocks_done_unit m' e' Vq) as [Hk Hr]; [lia | exact Hm'|].
      eexists. split; [exact Hr|]. split; [exact Hk|].
      intros m0 e0 Heq. injection Heq as <- <-. repeat split; trivial; lia. }
  destruct Hq as (kq & Hrq & Hkq & Hp).
  assert (Hkp : exists kp, 0 <= kp <= kq /\
                 float_to_int (float_mul p (float_of_int 16)) = Some kp).
  { destruct Hshape as [[s ->]|(m & e & ->)].
    - exists 0. split; [lia | reflexivity].
    - destruct (Hp m e eq_refl) as (Hm & He & Hle).
      destruct (blocks_done_unit m e Vp He Hm) as [Hk Hr].
      eexists. split; [|exact Hk]. lia. }
  destruct Hkp as (kp & Hrp & Hkp).
  exists (Z.to_nat kp), (Z.to_nat kq). split; [lia|]. split.
  - rewrite (progressbar_draw_any text color p kp w Hkp).
    replace (Z.to_nat (16 - Z.max 0 kp)) with (16 - Z.to_nat kp)%nat by lia. reflexivity.
  - rewrite (progressbar_draw_any text color q kq w Hkq).
    replace (Z.to_nat (16 - Z.max 0 kq)) with (16 - Z.to_nat kq)%nat by lia. reflexivity.
Qed.

(** ** time_miliseconds *)

(** X13: on Linux the result counts milliseconds: for a reading of
    gettimeofday with non-negative seconds it is seconds * 1000 plus the
    whole milliseconds, a later reading never gives a smaller result, and
    the difference of two results is within one millisecond of the time
    that passed.  On Windows the result is the wMilliseconds field alone,
    below 1000, with the seconds left out. *)
Theorem time_miliseconds_counts (a b : clock) :
  (target = LINUX ->
   0 <= tv_sec a < 2 ^ 53 -> 0 <= tv_sec b < 2 ^ 53 ->
   0 <= tv_usec a < 1000000 -> 0 <= tv_usec b < 1000000 ->
   time_miliseconds a = tv_sec a * 1000 + tv_usec a / 1000 /\
   time_miliseconds a / 1000 = tv_sec a /\
   (tv_sec a < tv_sec b \/ (tv_sec a = tv_sec b /\ tv_usec a <= tv_usec b) ->
    time_miliseconds a <= time_miliseconds b) /\
   Z.abs (1000 * (time_miliseconds b - time_miliseconds a)
          - ((tv_sec b - tv_sec a) * 1000000 + (tv_usec b - tv_usec a))) < 1000) /\
  (target = WINDOWS ->
   0 <= wMilliseconds a < 1000 ->
   time_miliseconds a = wMilliseconds a /\ time_miliseconds a < 1000).
Proof.
  assert (Hlinux : forall c, target = LINUX ->
            0 <= tv_sec c < 2 ^ 53 -> 0 <= tv_usec c < 1000000 ->
            time_miliseconds c = tv_sec c * 1000 + tv_usec c / 1000 /\
            0 <= tv_usec c / 1000 < 1000 /\
            0 <= tv_usec c - 1000 * (tv_usec c / 1000) < 1000).
  { intros c Ht Hs Hu. unfold time_miliseconds. rewrite Ht.
    rewrite Z.quot_div_nonneg by lia.
    pose proof (Z.div_mod (tv_usec c) 1000) as Hdm.
    pose proof (Z.mod_pos_bound (tv_usec c) 1000) as Hmod.
    assert (Hq : 0 <= tv_usec c / 1000 < 1000)
      by (split; [apply Z.div_pos; lia | apply Z.div_lt_upper_bound; lia]).
    change (2 ^ 53) with 9007199254740992 in Hs.
    rewrite Z.mod_small by (change (2 ^ 64) with 18446744073709551616; lia).
    repeat split; lia. }
  split.
  - intros Ht Hsa Hsb Hua Hub.
    destruct (Hlinux a Ht Hsa Hua) as (Ea & Qa & Ra).
    destruct (Hlinux b Ht Hsb Hub) as (Eb & Qb & Rb).
    rewrite Ea, Eb. split; [reflexivity|]. split; [|split].
    + rewrite Z.div_add_l by lia. rewrite (Z.div_small (tv_usec a / 1000)) by lia. lia.
    + intros [Hlt|[Heq Hle]]; [lia|].
      rewrite Heq. apply Z.add_le_mono_l. apply Z.div_le_mono; lia.
    + lia.
  - intros Ht Hw. unfold time_miliseconds. rewrite Ht.
    rewrite Z.mod_small by (change (2 ^ 64) with 18446744073709551616; lia).
    split; [reflexivity | lia].
Qed.

Section NonFatal.

Hypothesis code_distinct : distinct (map code all_deviceerrors) = true.

(** X14: a classification that comes back has done nothing but log at most
    one line: nothing for the two sentinels, the replace-in-place line
    "Upload cancelled by the user." for the cancelled upload, the warning
    for a value that is no enumerator's.  The device and the debug output
    are not closed, no key is awaited and the terminating flag is not
    set. *)
Theorem handle_deviceerror_nonfatal (err : Z) (w w' : world) :
  handle_deviceerror err w = Returned tt w' ->
  ((err = code DEVICEERR_OK \/ err = code DEVICEERR_NOTCART) /\ w' = w) \/
  (err = code DEVICEERR_UPLOADCANCELLED /\
   w' = emits w [ev_log_replace ("Upload cancelled by the user." ++ nl) CRDEF_PROGRAM]) \/
  ((forall v, err <> code v) /\ w' = emits w [unhandled_warning err]).
Proof.
  intros H.
  destruct (code_decode err) as [[v ->]|Hnot].
  - destruct (diagnostic v (device_cart w)) as [msg|] eqn:D.
    + rewrite (handle_hard code_distinct v msg w D) in H. discriminate.
    + apply diagnostic_none in D as [-> | D].
      * rewrite (handle_cancelled code_distinct) in H. injection H as <-. auto.
      * rewrite (handle_sentinel code_distinct v w D) in H. injection H as <-.
        left. split; [|reflexivity]. destruct D as [-> | ->]; auto.
  - rewrite (handle_unlisted err w Hnot) in H. injection H as <-. auto.
Qed.

End NonFatal.

End Helper.

(** ** The theorems at concrete inputs *)

(** Runs of the parsers: the shorthand, a full name, and the rejected
    empty and two-digit strings. *)
Example cart_strtotype_2 :
  cart_strtotype LINUX sample_error_color sample_input_color "2" process_start
  = Returned CART_64DRIVE2 process_start.
Proof. reflexivity. Qed.

Example cart_typetostr_2 :
  cart_typetostr CART_64DRIVE2 process_start = Returned "64Drive HW2" process_start.
Proof. reflexivity. Qed.

Example cic_strtotype_name :
  cic_strtotype LINUX sample_error_color sample_input_color (-1) "6102" process_start
  = Returned CIC_6102 process_start.
Proof. reflexivity. Qed.

Example cart_strtotype_empty :
  cart_strtotype LINUX sample_error_color sample_input_color "" process_start
  = Exited (-1)
      (terminated LINUX sample_error_color sample_input_color process_start
         [error_line sample_error_color "Unknown flashcart type ''"]).
Proof. reflexivity. Qed.

Example cic_strtotype_two_digits :
  cic_strtotype LINUX sample_error_color sample_input_color (-1) "12" process_start
  = Exited (-1)
      (terminated LINUX sample_error_color sample_input_color process_start
         [error_line sample_error_color "Unknown CIC '12'"]).
Proof. reflexivity. Qed.

(** Two names of one second, and the name of the same clock time a day
    later. *)
Example gen_filename_twice :
  let w1 := state_after (gen_filename new_year_morning true true "dump" "bin" process_start)
              process_start in
  gen_filename new_year_morning true true "dump" "bin" process_start
  = Returned (Some "dump-25010110000000.bin") w1 /\
  gen_filename new_year_morning true true "dump" "bin" w1
  = Returned (Some "dump-25010110000001.bin")
      (state_after (gen_filename new_year_morning true true "dump" "bin" w1) w1).
Proof. split; reflexivity. Qed.

(** A leap second and the minute after it have the same sum
    hour*3600 + minute*60 + second, so the counter goes on. *)
Example gen_filename_leap_second :
  let w1 := state_after (gen_filename (mkTm 60 0 10 1 0 125) true true "dump" "bin"
                           process_start) process_start in
  gen_filename (mkTm 0 1 10 1 0 125) true true "dump" "bin" w1
  = Returned (Some "dump-25010110010001.bin")
      (state_after (gen_filename (mkTm 0 1 10 1 0 125) true true "dump" "bin" w1) w1).
Proof. reflexivity. Qed.

(** C3, the defect: a rejected text is not always diagnosed.  terminate
    formats its reason into a buffer of 255 bytes without a bound, so the
    parsers end the process with the text echoed only up to 229 bytes of
    cartridge text, 240 of CIC text and 234 of save-type text; on an
    unrecognised text one byte longer the message overruns the buffer and
    the behaviour is undefined. *)
Lemma parse_long_text_overruns :
  cstring (filler 230) = true /\ shorthand Cart (filler 230) = false /\
  ~ In (filler 230) (strings Cart) /\
  parse LINUX sample_error_color sample_input_color (-1) Cart (filler 229) process_start
  = Exited (-1)
      (terminated LINUX sample_error_color sample_input_color process_start
         [error_line sample_error_color (unknown_text Cart (filler 229))]) /\
  parse LINUX sample_error_color sample_input_color (-1) Cart (filler 230) process_start
  = Undefined /\
  parse LINUX sample_error_color sample_input_color (-1) CIC (filler 241) process_start
  = Undefined /\
  parse LINUX sample_error_color sample_input_color (-1) Save (filler 235) process_start
  = Undefined.
Proof.
  split; [reflexivity|]. split; [reflexivity|]. split.
  - intros H. simpl in H. repeat (destruct H as [H|H]; [discriminate H|]). exact H.
  - repeat split; vm_compute; reflexivity.
Qed.

Lemma handle_deviceerror_classifies_witness :
  distinct (map sample_code all_deviceerrors) = true /\
  handle_deviceerror LINUX sample_error_color sample_input_color sample_program_color
    sample_code (sample_code DEVICEERR_MALLOCFAIL) process_start
  = Exited (-1)
      (terminated LINUX sample_error_color sample_input_color process_start
         [error_line sample_error_color "Malloc failure."]).
Proof.
  split; [reflexivity|].
  exact (proj2 (proj2 (proj2
    (handle_deviceerror_classifies LINUX sample_error_color sample_input_color
       sample_program_color sample_code eq_refl
       (sample_code DEVICEERR_MALLOCFAIL) process_start)))).
Defined.

Lemma parse_format_roundtrip_witness :
  first_value Cart <= 2 <= last_value Cart /\
  (s <- format Cart 2 ;;
   parse LINUX sample_error_color sample_input_color (-1) Cart s) process_start
  = Returned 2 process_start.
Proof.
  assert (H : first_value Cart <= 2 <= last_value Cart) by (compute; split; discriminate).
  split; [exact H|].
  exact (proj1 (parse_format_roundtrip LINUX sample_error_color sample_input_color (-1)
                  Cart 2 process_start H)).
Defined.

Lemma parse_accepts_or_terminates_witness :
  cstring "bogus" = true /\ shorthand Save "bogus" = false /\
  ~ In "bogus" (strings Save) /\
  Z.of_nat (String.length (unknown_text Save "bogus")) < 255 /\
  parse LINUX sample_error_color sample_input_color (-1) Save "bogus" process_start
  = Exited (-1)
      (terminated LINUX sample_error_color sample_input_color process_start
         [error_line sample_error_color (unknown_text Save "bogus")]).
Proof.
  assert (Hnot : ~ In "bogus" (strings Save)) by (simpl; intuition discriminate).
  assert (Hlen : Z.of_nat (String.length (unknown_text Save "bogus")) < 255) by reflexivity.
  split; [reflexivity|]. split; [reflexivity|]. split; [exact Hnot|].
  split; [exact Hlen|].
  destruct (parse_accepts_or_terminates LINUX sample_error_color sample_input_color (-1)
              Save process_start) as (_ & _ & Hreject).
  destruct (Hreject "bogus" eq_refl eq_refl Hnot) as (_ & _ & _ & _ & Hexit).
  exact (Hexit Hlen).
Defined.

Lemma gen_filename_counter_witness :
  0 <= increment process_start /\
  let w1 := state_after (gen_filename new_year_morning true true "dump" "bin" process_start)
              process_start in
  let w2 := state_after (gen_filename new_year_morning true true "heap" "txt" w1) w1 in
  increment w2 = increment w1 + 1.
Proof.
  assert (H : 0 <= increment process_start) by (compute; discriminate).
  split; [exact H|].
  pose proof (gen_filename_counter new_year_morning true true "dump" "bin" process_start H)
    as T.
  cbv zeta in T. destruct T as (_ & T & _ & _).
  destruct (T true true "heap" "txt") as [T1 _]. exact T1.
Defined.

(** C4 as stated fails: a call one day after the previous one, at the same
    clock time, is a call in a later second, and the counter goes on to 1
    instead of back to 0. *)
Lemma gen_filename_next_day_keeps_counting :
  let w1 := state_after (gen_filename new_year_morning true true "dump" "bin" process_start)
              process_start in
  let w2 := state_after (gen_filename next_morning true true "dump" "bin" w1) w1 in
  tm_mday new_year_morning < tm_mday next_morning /\
  tm_year new_year_morning = tm_year next_morning /\
  tm_mon new_year_morning = tm_mon next_morning /\
  increment w1 = 0 /\ increment w2 = 1 /\ increment w2 <> 0.
Proof. cbv zeta. repeat split; discriminate. Qed.

Lemma terminate_protocol_witness :
  exists w',
    terminate LINUX sample_error_color sample_input_color
      (Some "Unknown CIC '%s'") [arg_str "9"] process_start = Exited (-1) w' /\
    global_terminating w' = true /\
    trace w' =
      [ error_line sample_error_color "Unknown CIC '9'";
        ev_log_colored nl sample_error_color;
        ev_log_colored ("Press any key to continue..." ++ nl) sample_input_color;
        ev_tcgetattr; ev_tcgetattr; ev_tcsetattr true; ev_getchar; ev_tcsetattr false;
        ev_set_terminating; ev_term_end ].
Proof.
  destruct (terminate_protocol LINUX sample_error_color sample_input_color
              (Some "Unknown CIC '%s'") [arg_str "9"] process_start
              [error_line sample_error_color "Unknown CIC '9'"])
    as (w' & Hrun & _ & Hflag & Htrace).
  - simpl. exists "Unknown CIC '9'". split; [reflexivity|]. split; reflexivity.
  - exists w'. split; [exact Hrun|]. split; [exact Hflag | exact Htrace].
Defined.

(** C5 as stated fails: with no message supplied the newline is still
    printed in the error colour, first of all. *)
Lemma terminate_newline_without_message :
  exists w',
    terminate LINUX sample_error_color sample_input_color None [] process_start
    = Exited (-1) w' /\
    hd_error (trace w') = Some (ev_log_colored nl sample_error_color).
Proof.
  exists (terminated LINUX sample_error_color sample_input_color process_start []).
  split; reflexivity.
Qed.

Lemma handle_deviceerror_default_witness :
  distinct (map sample_code all_deviceerrors) = true /\
  (forall v, 99 <> sample_code v) /\
  handle_deviceerror LINUX sample_error_color sample_input_color sample_program_color
    sample_code 99 process_start
  = Returned tt (emits process_start [unhandled_warning sample_error_color 99]).
Proof.
  assert (H : forall v, 99 <> sample_code v) by (intros v; destruct v; discriminate).
  split; [reflexivity|]. split; [exact H|].
  exact (proj2 (proj2
    (handle_deviceerror_default LINUX sample_error_color sample_input_color
       sample_program_color sample_code eq_refl process_start)) 99 H).
Defined.

(** C6 as stated fails: classifying DEVICEERR_OK logs nothing. *)
Lemma handle_deviceerror_ok_is_silent :
  handle_deviceerror LINUX sample_error_color sample_input_color sample_program_color
    sample_code (sample_code DEVICEERR_OK) process_start
  = Returned tt process_start /\
  handle_deviceerror LINUX sample_error_color sample_input_color sample_program_color
    sample_code (sample_code DEVICEERR_OK) process_start
  <> Returned tt
       (emits process_start
          [unhandled_warning sample_error_color (sample_code DEVICEERR_OK)]).
Proof. split; [reflexivity | discriminate]. Qed.

Lemma gen_filename_null_or_name_witness :
  exists w',
    gen_filename new_year_morning false true "dump" "bin" process_start
    = Returned None w' /\ trace w' = trace process_start.
Proof.
  destruct (gen_filename_null_or_name new_year_morning false true "dump" "bin"
              process_start) as (r & w' & Hrun & Htrace & _ & Hnull & _).
  exists w'. rewrite <- (Hnull (or_introl eq_refl)). split; trivial.
Defined.

Lemma progressbar_draw_cells_witness :
  valid_binary 24 128 (S754_finite false 8388608 (-25)) = true /\
  SFleb (S754_zero false) (S754_finite false 8388608 (-25)) = true /\
  SFleb (S754_finite false 8388608 (-25)) (float_of_int 1) = true /\
  progressbar_draw LINUX "Uploading ROM" sample_program_color
    (S754_finite false 8388608 (-25)) process_start
  = Returned tt
      (emits process_start
         ([ev_log_replace "Uploading ROM [" sample_program_color]
          ++ repeat (cell (glyph_done LINUX) sample_program_color) 4
          ++ repeat (cell (glyph_todo LINUX) sample_program_color) 12
          ++ [ev_log_colored ("] 25.00%" ++ nl) sample_program_color])%list).
Proof.
  split; [reflexivity|]. split; [reflexivity|]. split; [reflexivity|].
  exact (proj2 (proj1 (progressbar_draw_cells LINUX "Uploading ROM" sample_program_color
                         process_start)
                  (S754_finite false 8388608 (-25)) eq_refl eq_refl eq_refl)).
Defined.

Lemma gen_filename_state_moves_first_witness :
  let w1 := state_after (gen_filename new_year_morning false true "dump" "bin" process_start)
              process_start in
  gen_filename new_year_morning false true "dump" "bin" process_start = Returned None w1 /\
  exists w2,
    gen_filename new_year_morning true true "dump" "bin" w1
    = Returned (Some (generated_name process_start "dump" "bin" new_year_morning
                        (increment w1 + 1))) w2 /\
    increment w2 = increment w1 + 1.
Proof.
  pose proof (gen_filename_state_moves_first new_year_morning false true "dump" "bin"
                process_start) as T.
  cbv zeta in T. destruct T as (_ & _ & _ & _ & T).
  destruct (T (or_introl eq_refl)) as [Hnull Hnext].
  cbv zeta. split; [exact Hnull | exact (Hnext "dump" "bin")].
Defined.

Lemma format_in_bounds_witness :
  first_value CIC <= 7 <= last_value CIC /\
  exists s, index (strings CIC) (row_of CIC 7) = Some s /\
            format CIC 7 process_start = Returned s process_start.
Proof.
  assert (H : first_value CIC <= 7 <= last_value CIC) by (compute; split; discriminate).
  split; [exact H|].
  exact (proj2 (format_in_bounds CIC 7 process_start H)).
Defined.

(** ** The further properties at concrete inputs *)

Lemma parse_returns_valid_value_witness :
  parse LINUX sample_error_color sample_input_color (-1) Cart "3" process_start
  = Returned 3 process_start /\
  first_value Cart <= 3 <= last_value Cart /\ process_start = process_start.
Proof.
  assert (H : parse LINUX sample_error_color sample_input_color (-1) Cart "3" process_start
              = Returned 3 process_start) by reflexivity.
  split; [exact H|].
  exact (parse_returns_valid_value LINUX sample_error_color sample_input_color (-1)
           Cart "3" process_start process_start 3 H).
Defined.

Lemma format_outside_range_witness :
  (5 < first_value Cart \/ last_value Cart < 5) /\ format Cart 5 process_start = Undefined.
Proof.
  assert (H : 5 < first_value Cart \/ last_value Cart < 5) by (right; reflexivity).
  split; [exact H|].
  exact (proj1 (format_outside_range Cart 5 process_start) H).
Defined.

Lemma format_parse_canonical_witness :
  parse LINUX sample_error_color sample_input_color (-1) Save "SRAM 768Kbit" process_start
  = Returned SAVE_SRAM768 process_start /\
  exists name,
    format Save SAVE_SRAM768 process_start = Returned name process_start /\
    In name (strings Save) /\
    parse LINUX sample_error_color sample_input_color (-1) Save name process_start
    = Returned SAVE_SRAM768 process_start /\
    (cstring "SRAM 768Kbit" = true -> shorthand Save "SRAM 768Kbit" = false ->
     name = "SRAM 768Kbit").
Proof.
  assert (H : parse LINUX sample_error_color sample_input_color (-1) Save "SRAM 768Kbit"
                process_start = Returned SAVE_SRAM768 process_start) by reflexivity.
  split; [exact H|].
  exact (format_parse_canonical LINUX sample_error_color sample_input_color (-1)
           Save "SRAM 768Kbit" process_start process_start SAVE_SRAM768 H).
Defined.

Lemma format_injective_witness :
  format CIC CIC_X103 process_start = Returned "X103" process_start /\
  CIC_X103 = CIC_X103.
Proof.
  assert (H : format CIC CIC_X103 process_start = Returned "X103" process_start)
    by reflexivity.
  split; [exact H|].
  exact (format_injective CIC CIC_X103 CIC_X103 process_start process_start "X103" H H).
Defined.

Lemma parse_rejection_buffer_witness :
  cstring "bogus" = true /\ shorthand Save "bogus" = false /\
  ~ In "bogus" (strings Save) /\
  Z.of_nat (String.length "bogus") <= longest_rejected Save /\
  parse LINUX sample_error_color sample_input_color (-1) Save "bogus" process_start
  = Exited (-1)
      (terminated LINUX sample_error_color sample_input_color process_start
         [error_line sample_error_color (unknown_text Save "bogus")]).
Proof.
  assert (Hnot : ~ In "bogus" (strings Save)) by (simpl; intuition discriminate).
  assert (Hlen : Z.of_nat (String.length "bogus") <= longest_rejected Save)
    by (compute; discriminate).
  split; [reflexivity|]. split; [reflexivity|]. split; [exact Hnot|].
  split; [exact Hlen|].
  exact (proj1 (parse_rejection_buffer LINUX sample_error_color sample_input_color (-1)
                  Save "bogus" process_start eq_refl eq_refl Hnot) Hlen).
Defined.

Lemma terminate_never_comes_back_witness :
  terminate LINUX sample_error_color sample_input_color None [] process_start
  = Exited (-1) (terminated LINUX sample_error_color sample_input_color process_start []) /\
  -1 = -1 /\
  exists diag,
    terminated LINUX sample_error_color sample_input_color process_start []
    = terminated LINUX sample_error_color sample_input_color process_start diag /\
    (diag = [] \/ exists msg, diag = [error_line sample_error_color msg]).
Proof.
  assert (H : terminate LINUX sample_error_color sample_input_color None [] process_start
              = Exited (-1)
                  (terminated LINUX sample_error_color sample_input_color process_start []))
    by reflexivity.
  split; [exact H|].
  exact (proj1 (proj2 (terminate_never_comes_back LINUX sample_error_color
                         sample_input_color None [] process_start)) _ _ H).
Defined.

Lemma diagnostics_unambiguous_witness :
  distinct (map sample_code all_deviceerrors) = true /\
  handle_deviceerror LINUX sample_error_color sample_input_color sample_program_color
    sample_code (sample_code DEVICEERR_TIMEOUT) process_start
  = Exited (-1)
      (terminated LINUX sample_error_color sample_input_color process_start
         [error_line sample_error_color "Flashcart timed out."]) /\
  DEVICEERR_TIMEOUT = DEVICEERR_TIMEOUT.
Proof.
  assert (H : handle_deviceerror LINUX sample_error_color sample_input_color
                sample_program_color sample_code (sample_code DEVICEERR_TIMEOUT)
                process_start
              = Exited (-1)
                  (terminated LINUX sample_error_color sample_input_color process_start
                     [error_line sample_error_color "Flashcart timed out."]))
    by reflexivity.
  split; [reflexivity|]. split; [exact H|].
  exact (diagnostics_unambiguous LINUX sample_error_color sample_input_color
           sample_program_color sample_code eq_refl
           DEVICEERR_TIMEOUT DEVICEERR_TIMEOUT process_start process_start _ H H).
Defined.

Lemma gen_filename_collides_witness :
  0 <= increment process_start /\
  Forall (fun k => time_of_day (call_now k) = time_of_day new_year_morning)
    [mkCall new_year_morning true false "heap" "txt"] /\
  exists n1 n2 w1 w2,
    gen_filename new_year_morning true true "dump" "bin" process_start
    = Returned (Some n1) w1 /\
    gen_filename new_year_morning true true "dump" "bin"
      (run [mkCall new_year_morning true false "heap" "txt"] w1)
    = Returned (Some n2) w2 /\
    (n1 = n2 <-> (Z.of_nat 1 + 1) mod 100 = 0).
Proof.
  assert (H : 0 <= increment process_start) by (compute; discriminate).
  assert (F : Forall (fun k => time_of_day (call_now k) = time_of_day new_year_morning)
                [mkCall new_year_morning true false "heap" "txt"])
    by (constructor; [reflexivity | constructor]).
  split; [exact H|]. split; [exact F|].
  exact (gen_filename_collides new_year_morning "dump" "bin" process_start _ H F).
Defined.

Lemma gen_filename_suffix_shape_witness :
  calendar new_year_morning /\ tm_year new_year_morning + 1900 <= INT_MAX /\
  0 <= increment process_start /\
  exists suffix,
    "dump-25010110000000.bin"
    = directory process_start ++ c_str "dump" ++ "-" ++ suffix ++ "." ++ c_str "bin" /\
    String.length suffix = 14%nat /\ all_digits suffix = true /\
    Z.of_nat (String.length suffix) + 1 <= DATESIZE /\
    String.length "dump-25010110000000.bin"
    = (String.length (directory process_start) + String.length (c_str "dump") + 16
       + String.length (c_str "bin"))%nat.
Proof.
  assert (C : calendar new_year_morning) by (unfold calendar; simpl; lia).
  assert (Y : tm_year new_year_morning + 1900 <= INT_MAX) by (compute; discriminate).
  assert (H : 0 <= increment process_start) by (compute; discriminate).
  split; [exact C|]. split; [exact Y|]. split; [exact H|].
  exact (gen_filename_suffix_shape new_year_morning true true "dump" "bin" process_start
           (ticked (time_of_day new_year_morning) process_start)
           "dump-25010110000000.bin" C Y H eq_refl).
Defined.

Lemma gen_filename_first_call_witness :
  calendar new_year_morning /\
  exists w',
    gen_filename new_year_morning true true "dump" "bin" process_start
    = Returned (Some (directory process_start ++ c_str "dump" ++ "-"
                      ++ stamp new_year_morning
                      ++ (if midnight new_year_morning then "01" else "00")
                      ++ "." ++ c_str "bin")) w' /\
    increment w' = (if midnight new_year_morning then 1 else 0) /\
    lasttime w' = time_of_day new_year_morning.
Proof.
  assert (C : calendar new_year_morning) by (unfold calendar; simpl; lia).
  split; [exact C|].
  exact (gen_filename_first_call new_year_morning "dump" "bin" process_start
           C eq_refl eq_refl).
Defined.

Lemma progressbar_draw_unclamped_witness :
  float_to_int (float_mul (S754_finite false 8388608 (-22)) (float_of_int 16)) = Some 32 /\
  progressbar_draw LINUX "Uploading ROM" sample_program_color
    (S754_finite false 8388608 (-22)) process_start
  = Returned tt
      (emits process_start
         (bar LINUX "Uploading ROM" sample_program_color
            (S754_finite false 8388608 (-22)) 32 0)).
Proof.
  split; [reflexivity|].
  exact (proj1 (progressbar_draw_unclamped LINUX "Uploading ROM" sample_program_color
                  (S754_finite false 8388608 (-22)) 32 process_start eq_refl)).
Defined.

Lemma progressbar_draw_monotone_witness :
  SFleb (S754_finite false 8388608 (-25)) (S754_finite false 8388608 (-24)) = true /\
  exists kp kq : nat,
    (kp <= kq <= 16)%nat /\
    progressbar_draw LINUX "Uploading ROM" sample_program_color
      (S754_finite false 8388608 (-25)) process_start
    = Returned tt
        (emits process_start
           (bar LINUX "Uploading ROM" sample_program_color
              (S754_finite false 8388608 (-25)) kp (16 - kp))) /\
    progressbar_draw LINUX "Uploading ROM" sample_program_color
      (S754_finite false 8388608 (-24)) process_start
    = Returned tt
        (emits process_start
           (bar LINUX "Uploading ROM" sample_program_color
              (S754_finite false 8388608 (-24)) kq (16 - kq))).
Proof.
  split; [reflexivity|].
  exact (progressbar_draw_monotone LINUX "Uploading ROM" sample_program_color
           (S754_finite false 8388608 (-25)) (S754_finite false 8388608 (-24))
           process_start eq_refl eq_refl eq_refl eq_refl eq_refl).
Defined.

Lemma time_miliseconds_counts_witness :
  time_miliseconds LINUX (mkClock 0 1735725600 999999) = 1735725600999 /\
  time_miliseconds LINUX (mkClock 0 1735725600 999999)
  <= time_miliseconds LINUX (mkClock 0 1735725601 0).
Proof.
  assert (Hs : 0 <= 1735725600 < 2 ^ 53) by (split; [discriminate | reflexivity]).
  assert (Hs' : 0 <= 1735725601 < 2 ^ 53) by (split; [discriminate | reflexivity]).
  assert (Hu : 0 <= 999999 < 1000000) by (split; [discriminate | reflexivity]).
  assert (Hu' : 0 <= 0 < 1000000) by (split; [discriminate | reflexivity]).
  destruct (proj1 (time_miliseconds_counts LINUX (mkClock 0 1735725600 999999)
                     (mkClock 0 1735725601 0)) eq_refl Hs Hs' Hu Hu')
    as (Hval & _ & Hmono & _).
  split; [exact Hval|].
  apply Hmono. left. reflexivity.
Defined.

Lemma handle_deviceerror_nonfatal_witness :
  distinct (map sample_code all_deviceerrors) = true /\
  handle_deviceerror LINUX sample_error_color sample_input_color sample_program_color
    sample_code (sample_code DEVICEERR_UPLOADCANCELLED) process_start
  = Returned tt
      (emits process_start
         [ev_log_replace ("Upload cancelled by the user." ++ nl) sample_program_color]) /\
  (((sample_code DEVICEERR_UPLOADCANCELLED = sample_code DEVICEERR_OK \/
     sample_code DEVICEERR_UPLOADCANCELLED = sample_code DEVICEERR_NOTCART) /\
    emits process_start
      [ev_log_replace ("Upload cancelled by the user." ++ nl) sample_program_color]
    = process_start) \/
   (sample_code DEVICEERR_UPLOADCANCELLED = sample_code DEVICEERR_UPLOADCANCELLED /\
    emits process_start
      [ev_log_replace ("Upload cancelled by the user." ++ nl) sample_program_color]
    = emits process_start
        [ev_log_replace ("Upload cancelled by the user." ++ nl) sample_program_color]) \/
   ((forall v, sample_code DEVICEERR_UPLOADCANCELLED <> sample_code v) /\
    emits process_start
      [ev_log_replace ("Upload cancelled by the user." ++ nl) sample_program_color]
    = emits process_start
        [unhandled_warning sample_error_color (sample_code DEVICEERR_UPLOADCANCELLED)])).
Proof.
  assert (H : handle_deviceerror LINUX sample_error_color sample_input_color
                sample_program_color sample_code
                (sample_code DEVICEERR_UPLOADCANCELLED) process_start
              = Returned tt
                  (emits process_start
                     [ev_log_replace ("Upload cancelled by the user." ++ nl)
                        sample_program_color])) by reflexivity.
  split; [reflexivity|]. split; [exact H|].
  exact (handle_deviceerror_nonfatal LINUX sample_error_color sample_input_color
           sample_program_color sample_code eq_refl _ _ _ H).
Defined.
